(** * scripts/osm_graph_loader.py: the graph export pipeline

    A shallow embedding of [graph_to_json] and [main] of
    [scripts/osm_graph_loader.py], and the properties of the export that
    the specification states about them.

    Python values are modelled as follows.
    - [float] is IEEE binary64: Rocq's primitive [float].  What [x ** 2]
      and [sum] do with floats depends on the interpreter and on the C
      library: they are read from a [Runtime].
    - [int] node identifiers and multigraph keys are [Z].
    - [str] is [string]; [str.lower] only matters for membership in the
      ASCII vocabulary of one-way values, and no code point outside ASCII
      lower-cases to one of its letters, so it is modelled on bytes.
    - an attribute dictionary is a [gmap string _]; [d.get(k, dflt)] is
      [default dflt (d !! k)], [k in d] is [is_Some (d !! k)] and [d[k]]
      raises [KeyError] when the key is absent.
    - [seen_edges] is a [gset].
    - a raised exception is the [Raise] branch of [result]. *)

From Stdlib Require Import ZArith String Ascii.
From Stdlib.Floats Require Import PrimFloat.
From Stdlib.Floats Require FloatOps FloatAxioms SpecFloat.
From Stdlib.Numbers.Cyclic.Int63 Require Uint63.
From stdpp Require Import gmap strings list pretty.

#[local] Open Scope Z_scope.
#[local] Set Warnings "-clear-no-such-hyp,-notation-for-abbreviation".

(** ** Exceptions and fallible computations *)

Inductive exn : Type :=
| KeyError (key : string)
| AttributeError (attr : string)
| ValueError (msg : string)
| TypeError (msg : string)
| OSError (msg : string)
| OverflowError (msg : string).

Inductive result (A : Type) : Type :=
| Ok (a : A)
| Raise (e : exn).
Arguments Ok {A} a.
Arguments Raise {A} e.

#[global] Instance result_ret : MRet result := @Ok.
#[global] Instance result_bind : MBind result := λ A B f m,
  match m with
  | Ok a => f a
  | Raise e => Raise e
  end.

(** [for x in l: st = body(st, x)], stopping at the first exception. *)
Fixpoint for_each {St A : Type} (body : St → A → result St)
    (st : St) (l : list A) : result St :=
  match l with
  | [] => Ok st
  | x :: l' => st' ← body st x; for_each body st' l'
  end.

(** ** Python values held by edge attributes *)

(** A coordinate tuple of a shapely geometry: two floats, or three when
    the geometry has a z dimension. *)
Notation coord := (list float).

#[warnings="-register-all"]
Inductive pyval : Type :=
| VNone
| VBool (b : bool)
| VInt (z : Z)
| VFloat (f : float)
| VStr (s : string)
| VList (l : list pyval)
| VLineString (coords : list coord).

Definition lower_ascii (c : ascii) : ascii :=
  let n := nat_of_ascii c in
  if ((65 <=? n) && (n <=? 90))%nat then ascii_of_nat (n + 32) else c.

(** [s.lower()] *)
Fixpoint lower (s : string) : string :=
  match s with
  | EmptyString => EmptyString
  | String c s' => String (lower_ascii c) (lower s')
  end.

(** [d[k]] *)
Definition getitem {V : Type} (d : gmap string V) (k : string) : result V :=
  match d !! k with
  | Some v => Ok v
  | None => Raise (KeyError k)
  end.

(** ** The graph source: a networkx [MultiDiGraph]

    [G_nodes] is [G.nodes(data=True)] and [G_edges] is
    [G.edges(keys=True, data=True)], both in iteration order.  Node
    attributes hold coordinates; edge attributes hold arbitrary values. *)

Notation node_attrs := (gmap string float).
Notation edge_attrs := (gmap string pyval).
Notation edge := (Z * Z * Z * edge_attrs)%type.

Record MultiDiGraph : Type := {
  G_nodes : list (Z * node_attrs);
  G_edges : list edge
}.

(** [G.nodes[n]] *)
Fixpoint nodes_getitem (l : list (Z * node_attrs)) (n : Z) : result node_attrs :=
  match l with
  | [] => Raise (KeyError (pretty n))
  | (m, data) :: l' => if bool_decide (m = n) then Ok data else nodes_getitem l' n
  end.

(** The (u, v, key) of an edge; networkx keeps them unique in a multigraph. *)
Definition edge_triple (e : edge) : Z * Z * Z :=
  let '(u, v, key, _) := e in (u, v, key).

(** ** The exported document

    The records are the dictionaries of the output with their keys as field
    names, but for [node_id] and [seg_id], which are the two keys ["id"],
    and [fge_u], [fge_v] and [fge_length], which are ["u"], ["v"] and
    ["length"]. *)

Record Node : Type := {
  node_id : string;
  lat : float;
  lon : float
}.

Record Segment : Type := {
  seg_id : string;
  startNodeId : string;
  endNodeId : string;
  lengthMeters : pyval;
  name : pyval;
  osmWayIds : list pyval;
  geometry : list (float * float);
  oneway : bool
}.

Record FullGraphEdge : Type := {
  fge_u : string;
  fge_v : string;
  fge_length : pyval
}.

Record document : Type := {
  nodes : list Node;
  segments : list Segment;
  startingLocation : option Node;
  fullGraphNodes : list Node;
  fullGraphEdges : list FullGraphEdge
}.

(** ** [graph_to_json] *)

(** [f"node_{n}"] and [f"seg_{u}_{v}_{key}"] *)
Definition node_name (n : Z) : string := "node_" +:+ pretty n.

Definition segment_name (u v key : Z) : string :=
  "seg_" +:+ pretty u +:+ "_" +:+ pretty v +:+ "_" +:+ pretty key.

(** The node loops (source lines 214-219 and 304-309). *)
Definition project_node (nd : Z * node_attrs) : Node :=
  let '(nid, data) := nd in
  {| node_id := node_name nid;
     lat := default 0%float (data !! "y");
     lon := default 0%float (data !! "x") |}.

(** [tuple(sorted([u, v])) + (key,)] *)
Definition edge_id (u v key : Z) : Z * Z * Z := (Z.min u v, Z.max u v, key).

(** [data['geometry'].coords]: only a geometry object has the attribute. *)
Definition linestring_coords (g : pyval) : result (list coord) :=
  match g with
  | VLineString coords => Ok coords
  | _ => Raise (AttributeError "coords")
  end.

(** One round of [[lat, lon] for lon, lat in coords]: the tuple is
    unpacked into exactly two names. *)
Definition flip_coord (c : coord) : result (float * float) :=
  match c with
  | [lon; lat] => Ok (lat, lon)
  | [] | [_] =>
      Raise (ValueError ("not enough values to unpack (expected 2, got " +:+
        pretty (length c) +:+ ")"))
  | _ => Raise (ValueError "too many values to unpack (expected 2)")
  end.

Fixpoint flip_coords (coords : list coord) : result (list (float * float)) :=
  match coords with
  | [] => Ok []
  | c :: coords' =>
      p ← flip_coord c;
      ps ← flip_coords coords';
      Ok (p :: ps)
  end.

(** Source lines 231-243. *)
Definition get_geometry (G : MultiDiGraph) (u v : Z) (data : edge_attrs)
    : result (list (float * float)) :=
  match data !! "geometry" with
  | Some g =>
      coords ← linestring_coords g;
      flip_coords coords
  | None =>
      start_node ← nodes_getitem (G_nodes G) u;
      end_node ← nodes_getitem (G_nodes G) v;
      y1 ← getitem start_node "y";
      x1 ← getitem start_node "x";
      y2 ← getitem end_node "y";
      x2 ← getitem end_node "x";
      Ok [(y1, x1); (y2, x2)]
  end.

(** Source lines 246-248. *)
Definition get_osm_ids (data : edge_attrs) : list pyval :=
  let osm_ids := default (VList []) (data !! "osmid") in
  match osm_ids with
  | VList l => l
  | _ => [osm_ids]
  end.

(** Source lines 251-253. *)
Definition get_name (data : edge_attrs) : pyval :=
  let name := default VNone (data !! "name") in
  match name with
  | VList (first :: _) => first
  | VList [] => VNone
  | _ => name
  end.

(** Source line 256. *)
Definition get_length (data : edge_attrs) : pyval :=
  default (VFloat 0%float) (data !! "length").

Definition oneway_vocabulary : list string := ["yes"; "true"; "1"; "-1"].

(** [s.lower() in ('yes', 'true', '1', '-1')] *)
Definition in_oneway_vocabulary (s : string) : bool :=
  bool_decide (lower s ∈ oneway_vocabulary).

(** The body of the generator handed to [any] (source lines 265-266). *)
Definition oneway_element (o : pyval) : bool :=
  match o with
  | VBool b => b
  | VStr s => in_oneway_vocabulary s
  | _ => false
  end.

(** Source lines 259-272. *)
Definition get_oneway (data : edge_attrs) : bool :=
  match default (VBool false) (data !! "oneway") with
  | VList l => existsb oneway_element l
  | VStr s => in_oneway_vocabulary s
  | VBool b => b
  | _ => false
  end.

(** What the loop body does with an edge once [seen_edges] has let it
    through (source lines 230-283). *)
Definition build_segment (G : MultiDiGraph) (e : edge) : result Segment :=
  let '(u, v, key, data) := e in
  geometry ← get_geometry G u v data;
  Ok {| seg_id := segment_name u v key;
        startNodeId := node_name u;
        endNodeId := node_name v;
        lengthMeters := get_length data;
        name := get_name data;
        osmWayIds := get_osm_ids data;
        geometry := geometry;
        oneway := get_oneway data |}.

(** The body of the edge loop (source lines 223-283); the state is
    [(seen_edges, segments)]. *)
Definition segment_step (G : MultiDiGraph)
    (st : gset (Z * Z * Z) * list Segment) (e : edge)
    : result (gset (Z * Z * Z) * list Segment) :=
  let '(seen_edges, segments) := st in
  let '(u, v, key, _) := e in
  if bool_decide (edge_id u v key ∈ seen_edges) then Ok st
  else
    let seen_edges := seen_edges ∪ {[edge_id u v key]} in
    seg ← build_segment G e;
    Ok (seen_edges, segments ++ [seg]).

(** ** The runtime

    What the centroid computation does with floats is not fixed by the
    program.
    - [x ** 2]: CPython's [float.__pow__] hands the finite cases to the
      [pow] of the C library and raises [OverflowError] when that
      overflows; the value is the one of the C library, which need not be
      the correctly rounded product [x * x].  numpy's [float64], which the
      coordinates read from a data frame are, returns [inf] and raises
      nothing.
    - [sum]: CPython 3.12 and later add floats with a compensation term,
      earlier versions add them one by one. *)
Class Runtime : Type := {
  py_pow_2 : float → result float;
  compensated_sum : bool
}.

Definition ERANGE : Z := 34.

(** [float_pow] of CPython's [Objects/floatobject.c] at the exponent 2.0.
    [c_pow_2 x] is [pow(x, 2.0)] of the C library: its value and the
    [errno] it leaves, 0 when it leaves none. *)
Definition float_pow_2 (c_pow_2 : float → float * Z) (iv : float) : result float :=
  if PrimFloat.is_nan iv then Ok iv
  else if PrimFloat.is_infinity iv then Ok (PrimFloat.abs iv)
  else if (iv =? 0)%float then Ok 0%float
  else
    let iv := if (iv <? 0)%float then (- iv)%float else iv in
    if (iv =? 1)%float then Ok 1%float
    else
      let '(ix, errno) := c_pow_2 iv in
      (* _Py_ADJUST_ERANGE1 *)
      let errno :=
        if bool_decide (errno = 0) then
          if PrimFloat.is_infinity ix then ERANGE else 0
        else if bool_decide (errno = ERANGE) && (ix =? 0)%float then 0
        else errno in
      if bool_decide (errno = 0) then Ok ix
      else if bool_decide (errno = ERANGE)
      then Raise (OverflowError "(34, 'Numerical result out of range')")
      else Raise (ValueError (pretty errno)).

(** CPython on exact floats, over a C library. *)
Definition cpython (c_pow_2 : float → float * Z) (compensated_sum : bool) : Runtime :=
  {| py_pow_2 := float_pow_2 c_pow_2; compensated_sum := compensated_sum |}.

(** One round of the summation of CPython 3.12 (Neumaier's variant of
    Kahan's algorithm); the state is the running sum and the compensation. *)
Definition neumaier_step (st : float * float) (x : float) : float * float :=
  let '(f_result, c) := st in
  let t := (f_result + x)%float in
  let c :=
    if (PrimFloat.abs x <=? PrimFloat.abs f_result)%float
    then (c + ((f_result - t) + x))%float
    else (c + ((x - t) + f_result))%float in
  (t, c).

(** [sum(xs)] over floats.  Without compensation: the additions from 0 in
    list order.  With it: the first item is added to 0, the others go
    through [neumaier_step], and the compensation is added at the end
    unless it is zero, infinite or NaN.  ([sum] of no item is the integer
    0; the program sums non-empty lists only.) *)
Definition py_sum `{Runtime} (xs : list float) : float :=
  if compensated_sum then
    match xs with
    | [] => 0%float
    | x :: xs' =>
        let '(f_result, c) := fold_left neumaier_step xs' ((0 + x)%float, 0%float) in
        if negb (c =? 0)%float && PrimFloat.is_finite c
        then (f_result + c)%float else f_result
    end
  else fold_left PrimFloat.add xs 0%float.

(** [len(xs)] as the divisor of a float, for lists shorter than 2^63. *)
Definition float_of_len {A : Type} (l : list A) : float :=
  PrimFloat.of_uint63 (Uint63.of_Z (Z.of_nat (length l))).

(** [min(first :: rest, key=key)]: the key of every item is computed once,
    in order, and the running best is replaced only by an item whose key
    is strictly smaller; an exception of [key] ends the loop. *)
Fixpoint py_min_loop {A : Type} (key : A → result float)
    (best : A) (best_key : float) (rest : list A) : result A :=
  match rest with
  | [] => Ok best
  | item :: rest' =>
      k ← key item;
      if (k <? best_key)%float then py_min_loop key item k rest'
      else py_min_loop key best best_key rest'
  end.

Definition py_min {A : Type} (key : A → result float) (first : A) (rest : list A)
    : result A :=
  k ← key first; py_min_loop key first k rest.

(** The key of source line 292. *)
Definition centroid_distance `{Runtime} (avg_lat avg_lon : float) (n : Node)
    : result float :=
  dlat ← py_pow_2 (lat n - avg_lat)%float;
  dlon ← py_pow_2 (lon n - avg_lon)%float;
  Ok (dlat + dlon)%float.

Definition avg_lat `{Runtime} (nodes : list Node) : float :=
  (py_sum (lat <$> nodes) / float_of_len nodes)%float.

Definition avg_lon `{Runtime} (nodes : list Node) : float :=
  (py_sum (lon <$> nodes) / float_of_len nodes)%float.

(** Source lines 286-300. *)
Definition starting_location `{Runtime} (nodes : list Node) : result (option Node) :=
  match nodes with
  | [] => Ok None
  | first :: rest =>
      starting_node ←
        py_min (centroid_distance (avg_lat nodes) (avg_lon nodes)) first rest;
      Ok (Some {| node_id := node_id starting_node;
                  lat := lat starting_node;
                  lon := lon starting_node |})
  end.

(** Source lines 313-318. *)
Definition full_graph_edge (e : edge) : FullGraphEdge :=
  let '(u, v, _, data) := e in
  {| fge_u := node_name u;
     fge_v := node_name v;
     fge_length := get_length data |}.

Definition graph_to_json `{Runtime} (G_simplified : MultiDiGraph)
    (G_full : option MultiDiGraph) : result document :=
  let G_full := default G_simplified G_full in
  let nodes := project_node <$> G_nodes G_simplified in
  '(_, segments) ← for_each (segment_step G_simplified) (∅, []) (G_edges G_simplified);
  starting_location ← starting_location nodes;
  let full_graph_nodes := project_node <$> G_nodes G_full in
  let full_graph_edges := full_graph_edge <$> G_edges G_full in
  Ok {| nodes := nodes;
        segments := segments;
        startingLocation := starting_location;
        fullGraphNodes := full_graph_nodes;
        fullGraphEdges := full_graph_edges |}.

(** ** [main]

    The command line is the record [args]; [bbox] is [None] when the
    option is not given.  The file system maps the paths that exist to
    their contents.  The run returns the exit status and the file system
    it leaves; what it prints on the error stream is not modelled.

    Four things are outside the script and are parameters of the model:
    - [py_float s] is [float(s)], [None] when it raises [ValueError];
    - [load_osm_graph] stands for the function of that name, whose result
      is what osmnx and pyrosm make of the input file: a pair of graphs
      or an exception; it leaves the file system as it is;
    - [open_for_writing fs path] tells whether [open(path, 'w')] succeeds
      (it raises [OSError] otherwise); when it does, the file exists from
      then on, empty until something is written;
    - [json_dump doc] is the text that [json.dump] has written to the file
      when it returns or raises, with the exception if it raises. *)

Record args : Type := {
  osm_file : string;
  output_json : string;
  bbox : option string
}.

Notation file_system := (gmap string string).

(** [s.split(sep)] for a one-character separator. *)
Fixpoint split_on (sep : ascii) (s : string) : list string :=
  match s with
  | EmptyString => [EmptyString]
  | String c s' =>
      if Ascii.eqb c sep then EmptyString :: split_on sep s'
      else
        match split_on sep s' with
        | piece :: pieces => String c piece :: pieces
        | [] => [String c EmptyString]
        end
  end.

Section main.
Context `{Runtime}.
Context (py_float : string → option float).
Context (load_osm_graph :
  file_system → string → option (list float) → result (MultiDiGraph * MultiDiGraph)).
Context (open_for_writing : file_system → string → bool).
Context (json_dump : document → string * option exn).

(** [tuple(map(float, pieces))] *)
Fixpoint map_float (pieces : list string) : result (list float) :=
  match pieces with
  | [] => Ok []
  | piece :: pieces' =>
      match py_float piece with
      | Some x => xs ← map_float pieces'; Ok (x :: xs)
      | None => Raise (ValueError "could not convert string to float")
      end
  end.

(** The body of the [try] of source lines 346-349. *)
Definition parse_bbox (s : string) : result (list float) :=
  bbox ← map_float (split_on "," s);
  if bool_decide (length bbox ≠ 4%nat)
  then Raise (ValueError "Bounding box must have 4 values")
  else Ok bbox.

(** Source lines 344-352: an absent or empty option leaves [bbox = None]. *)
Definition parsed_bbox (a : args) : result (option (list float)) :=
  match bbox a with
  | Some s =>
      if bool_decide (s = "") then Ok None
      else bbox ← parse_bbox s; Ok (Some bbox)
  | None => Ok None
  end.

(** Source lines 341-383. *)
Definition main (a : args) (fs : file_system) : Z * file_system :=
  match parsed_bbox a with
  | Raise _ => (1, fs)
  | Ok bbox =>
      if bool_decide (fs !! osm_file a = None) then (1, fs)
      else
        match load_osm_graph fs (osm_file a) bbox with
        | Raise _ => (1, fs)
        | Ok (G_simplified, G_full) =>
            match graph_to_json G_simplified (Some G_full) with
            | Raise _ => (1, fs)
            | Ok result =>
                if open_for_writing fs (output_json a) then
                  let '(text, raised) := json_dump result in
                  let fs' := <[output_json a := text]> fs in
                  match raised with
                  | Some _ => (1, fs')
                  | None => (0, fs')
                  end
                else (1, fs)
            end
        end
  end.

(** The run gets as far as converting the loaded graphs to [doc]. *)
Definition converts_to (a : args) (fs : file_system) (doc : document) : Prop :=
  ∃ bbox G_simplified G_full,
    parsed_bbox a = Ok bbox ∧ fs !! osm_file a ≠ None ∧
    load_osm_graph fs (osm_file a) bbox = Ok (G_simplified, G_full) ∧
    graph_to_json G_simplified (Some G_full) = Ok doc.
End main.

(** ** The vocabulary of the statements *)

(** The edge loop is a filter followed by a map.
    [kept_edges seen_edges es] lists the edges of [es] that the test on
    [seen_edges] lets through, in iteration order: it is the loop of
    [segment_step] with the construction of the segment left out. *)

Definition edge_key (e : edge) : Z * Z * Z :=
  let '(u, v, key, _) := e in edge_id u v key.

Fixpoint kept_edges (seen_edges : gset (Z * Z * Z)) (es : list edge) : list edge :=
  match es with
  | [] => []
  | e :: es' =>
      if bool_decide (edge_key e ∈ seen_edges) then kept_edges seen_edges es'
      else e :: kept_edges (seen_edges ∪ {[edge_key e]}) es'
  end.

(** [segs] holds one segment per edge of [es], built from it, in order. *)
Definition built_from (G : MultiDiGraph) (es : list edge) (segs : list Segment) : Prop :=
  Forall2 (λ e s, build_segment G e = Ok s) es segs.

(** The number of distinct canonical keys among [es]. *)
Definition distinct_keys (es : list edge) : nat :=
  size (list_to_set (edge_key <$> es) : gset (Z * Z * Z)).

(** [c] is the canonical key of the entry [s]: the sorted endpoint pair and
    the disambiguating key of the (u, v, key) that its identifier names. *)
Definition canonical_key (s : Segment) (c : Z * Z * Z) : Prop :=
  ∃ u v key, seg_id s = segment_name u v key ∧ c = edge_id u v key.

(** Whether a string holds an underscore. *)
Fixpoint has_underscore (s : string) : bool :=
  match s with
  | EmptyString => false
  | String c s' => bool_decide (c = "_"%char) || has_underscore s'
  end.

(** Exactly one entry of [segments doc] has the canonical key [c]. *)
Definition emitted_once (doc : document) (c : Z * Z * Z) : Prop :=
  ∃ i s, segments doc !! i = Some s ∧ canonical_key s c ∧
    ∀ j s', segments doc !! j = Some s' → canonical_key s' c → j = i.

(** Every field of the entry [s] is computed from the directed edge [e]. *)
Definition taken_from (G : MultiDiGraph) (e : edge) (s : Segment) : Prop :=
  let '(u, v, key, data) := e in
  seg_id s = segment_name u v key ∧
  startNodeId s = node_name u ∧
  endNodeId s = node_name v ∧
  lengthMeters s = get_length data ∧
  name s = get_name data ∧
  osmWayIds s = get_osm_ids data ∧
  get_geometry G u v data = Ok (geometry s) ∧
  oneway s = get_oneway data.

(** An edge from which the loop body builds a segment without raising:
    its geometry, when present, is a line of two-dimensional points, and
    otherwise both end nodes carry both coordinates. *)
Definition has_coordinates (G : MultiDiGraph) (n : Z) : Prop :=
  ∃ data y x, nodes_getitem (G_nodes G) n = Ok data ∧
    data !! "y" = Some y ∧ data !! "x" = Some x.

Definition flipped (p : float * float) : coord := [p.2; p.1].

Definition edge_well_formed (G : MultiDiGraph) (e : edge) : Prop :=
  let '(u, v, _, data) := e in
  match data !! "geometry" with
  | Some g => ∃ points, g = VLineString (flipped <$> points)
  | None => has_coordinates G u ∧ has_coordinates G v
  end.

(** [x <? y] on floats is the strict lexicographic order of [float_rank]
    on the floats that are not NaN, and false as soon as one is NaN. *)

Definition float_rank (f : SpecFloat.spec_float) : Z * Z * Z :=
  match f with
  | SpecFloat.S754_nan => (0, 0, 0)
  | SpecFloat.S754_infinity true => (-2, 0, 0)
  | SpecFloat.S754_finite true m e => (-1, - e, - Z.pos m)
  | SpecFloat.S754_zero _ => (0, 0, 0)
  | SpecFloat.S754_finite false m e => (1, e, Z.pos m)
  | SpecFloat.S754_infinity false => (2, 0, 0)
  end.

Definition rank_lt (a b : Z * Z * Z) : Prop :=
  a.1.1 < b.1.1 ∨ (a.1.1 = b.1.1 ∧ (a.1.2 < b.1.2 ∨ (a.1.2 = b.1.2 ∧ a.2 < b.2))).

Definition rank (x : float) : Z * Z * Z := float_rank (FloatOps.Prim2SF x).

(** ** A sample runtime

    CPython before 3.12 over a C library whose [pow(x, 2.0)] is the
    correctly rounded square and that reports an overflow through [errno],
    as glibc does.  The statements about sample inputs are evaluated on
    it; every other statement holds for every runtime. *)
Definition exact_pow_2 (x : float) : float * Z :=
  let r := (x * x)%float in
  (r, if PrimFloat.is_infinity r then ERANGE else 0).

#[local] Instance sample_runtime : Runtime | 100 := cpython exact_pow_2 false.

(** ** Sample inputs

    Three nodes at (0,0), (0,2) and (2,0) and one link between the first
    two, stored as a pair of opposite directed edges of length 10 without
    geometry; networkx gives both the key 0. *)

Definition at_lat_lon (y x : float) : node_attrs := <["y" := y]> (<["x" := x]> ∅).

Definition scenario_graph : MultiDiGraph := {|
  G_nodes := [(1, at_lat_lon 0 0); (2, at_lat_lon 0 2); (3, at_lat_lon 2 0)];
  G_edges := [(1, 2, 0, {["length" := VFloat 10]});
              (2, 1, 0, {["length" := VFloat 10]})]
|}.

(** The same graph with the reverse edge visited first. *)
Definition scenario_graph_reversed : MultiDiGraph := {|
  G_nodes := G_nodes scenario_graph;
  G_edges := [(2, 1, 0, {["length" := VFloat 10]});
              (1, 2, 0, {["length" := VFloat 10]})]
|}.

Definition scenario_nodes : list Node :=
  [{| node_id := "node_1"; lat := 0; lon := 0 |};
   {| node_id := "node_2"; lat := 0; lon := 2 |};
   {| node_id := "node_3"; lat := 2; lon := 0 |}].

Definition scenario_segment : Segment := {|
  seg_id := "seg_1_2_0";
  startNodeId := "node_1";
  endNodeId := "node_2";
  lengthMeters := VFloat 10;
  name := VNone;
  osmWayIds := [];
  geometry := [(0, 0); (0, 2)]%float;
  oneway := false
|}.

Definition scenario_document : document := {|
  nodes := scenario_nodes;
  segments := [scenario_segment];
  startingLocation := Some {| node_id := "node_1"; lat := 0; lon := 0 |};
  fullGraphNodes := scenario_nodes;
  fullGraphEdges :=
    [{| fge_u := "node_1"; fge_v := "node_2"; fge_length := VFloat 10 |};
     {| fge_u := "node_2"; fge_v := "node_1"; fge_length := VFloat 10 |}]
|}.

(** A link whose edge carries an explicit geometry with no point. *)
Definition empty_geometry_graph : MultiDiGraph := {|
  G_nodes := [(1, at_lat_lon 0 0); (2, at_lat_lon 0 2)];
  G_edges := [(1, 2, 0, {["geometry" := VLineString []]})]
|}.

(** [G = nx.MultiDiGraph(); G.add_edge(1, 2)]: the edge has no geometry
    and its end nodes have no coordinate attributes. *)
Definition missing_coordinates_graph : MultiDiGraph := {|
  G_nodes := [(1, ∅); (2, ∅)];
  G_edges := [(1, 2, 0, ∅)]
|}.

(** A one-way street as OSMnx stores it: the attribute is a plain boolean. *)
Definition oneway_street_graph : MultiDiGraph := {|
  G_nodes := [(1, at_lat_lon 0 0); (2, at_lat_lon 0 2)];
  G_edges := [(1, 2, 0, {["oneway" := VBool true]})]
|}.

(** The empty graph. *)
Definition empty_graph : MultiDiGraph := {| G_nodes := []; G_edges := [] |}.

(** A run on which serialization fails: the loader returns the sample
    graph and the disk is full once [json.dump] has written the opening
    brace. *)
Definition sample_args : args :=
  {| osm_file := "map.osm"; output_json := "out.json"; bbox := None |}.

Definition sample_file_system : file_system := {["map.osm" := "<osm/>"]}.

Definition failing_json_dump (doc : document) : string * option exn :=
  ("{", Some (OSError "[Errno 28] No space left on device")).

Definition complete_json_dump (doc : document) : string * option exn :=
  ("{...}", None).

(** The identifier that the edge loop gives to the segment of an edge. *)
Definition edge_segment_name (e : edge) : string :=
  let '(u, v, key, _) := e in segment_name u v key.

(** Both ends of every edge are nodes of the graph, as networkx has it. *)
Definition edges_end_in_nodes (G : MultiDiGraph) : Prop :=
  ∀ u v key data, (u, v, key, data) ∈ G_edges G →
    u ∈ fst <$> G_nodes G ∧ v ∈ fst <$> G_nodes G.

(** The edge loop can build the segment of [e]. *)
Definition buildable (G : MultiDiGraph) (e : edge) : Prop :=
  ∃ s, build_segment G e = Ok s.

(** A link with a reverse edge whose geometry is no line: the reverse edge
    has the canonical key of the forward edge. *)
Definition shadowed_edge_graph : MultiDiGraph := {|
  G_nodes := [(1, at_lat_lon 0 0); (2, at_lat_lon 0 2)];
  G_edges := [(1, 2, 0, {["name" := VList [VStr "Main Street"; VStr "High Street"]]});
              (2, 1, 0, {["geometry" := VInt 7]})]
|}.

(** The number of occurrences of [c] in [s]. *)
Fixpoint count_char (c : ascii) (s : string) : nat :=
  match s with
  | EmptyString => 0
  | String c' s' => (if Ascii.eqb c' c then 1 else 0) + count_char c s'
  end.

(** ** [load_osm_graph] and [load_graph_from_bbox]

    A bounding box is the tuple (minLat, minLon, maxLat, maxLon), here a
    list of floats.  What osmnx does is a parameter of the model:
    - [graph_from_xml fs osm_file simplify] is
      [ox.graph_from_xml(osm_file, simplify=simplify, bidirectional=True)];
    - [truncate_graph_bbox G north south east west] is
      [ox.truncate.truncate_graph_bbox];
    - [graph_from_bbox north south east west] is [ox.graph_from_bbox] with
      [network_type='drive'] and [simplify=True], a download;
    - [PYROSM_AVAILABLE] tells whether pyrosm could be imported;
    - [load_graph_from_pbf] is the function of that name, modelled below. *)

#[local] Set Warnings "-inexact-float".

Definition RIGA_BBOX : list float := [56.88; 23.95; 57.05; 24.30]%float.

(** [s.endswith(suffix)] *)
Definition endswith (s suffix : string) : bool :=
  bool_decide (String.length suffix ≤ String.length s)%nat &&
  String.eqb (substring (String.length s - String.length suffix) (String.length suffix) s)
    suffix.

(** [min_lat, min_lon, max_lat, max_lon = bbox] *)
Definition unpack_bbox (bbox : list float) : result (float * float * float * float) :=
  match bbox with
  | [min_lat; min_lon; max_lat; max_lon] => Ok (min_lat, min_lon, max_lat, max_lon)
  | [] | [_] | [_; _] | [_; _; _] =>
      Raise (ValueError ("not enough values to unpack (expected 4, got " +:+
        pretty (length bbox) +:+ ")"))
  | _ => Raise (ValueError "too many values to unpack (expected 4)")
  end.

Definition pyrosm_missing : exn :=
  ValueError ("PBF files require pyrosm. Install with: pip install pyrosm" +:+
    String "010" "Or provide a --bbox to download from Overpass API.").

Section load_osm_graph.
Context (PYROSM_AVAILABLE : bool).
Context (graph_from_xml : file_system → string → bool → result MultiDiGraph).
Context (truncate_graph_bbox :
  MultiDiGraph → float → float → float → float → result MultiDiGraph).
Context (graph_from_bbox : float → float → float → float → result MultiDiGraph).
Context (load_graph_from_pbf :
  file_system → string → option (list float) → result (MultiDiGraph * MultiDiGraph)).

(** Source lines 183-196. *)
Definition load_graph_from_bbox (bbox : list float) : result MultiDiGraph :=
  '(min_lat, min_lon, max_lat, max_lon) ← unpack_bbox bbox;
  graph_from_bbox max_lat min_lat max_lon min_lon.

(** Source lines 57-102; [if bbox:] holds of a tuple that is not empty. *)
Definition load_osm_graph (fs : file_system) (osm_file : string)
    (bbox : option (list float)) : result (MultiDiGraph * MultiDiGraph) :=
  let bbox := default RIGA_BBOX bbox in
  let is_pbf := endswith osm_file ".pbf" in
  if is_pbf then
    if negb PYROSM_AVAILABLE then
      if bool_decide (bbox ≠ []) then
        G ← load_graph_from_bbox bbox;
        Ok (G, G)
      else Raise pyrosm_missing
    else load_graph_from_pbf fs osm_file (Some bbox)
  else
    G_full ← graph_from_xml fs osm_file false;
    G_simplified ← graph_from_xml fs osm_file true;
    if bool_decide (bbox ≠ []) then
      '(min_lat, min_lon, max_lat, max_lon) ← unpack_bbox bbox;
      G_full ← truncate_graph_bbox G_full max_lat min_lat max_lon min_lon;
      G_simplified ← truncate_graph_bbox G_simplified max_lat min_lat max_lon min_lon;
      Ok (G_simplified, G_full)
    else Ok (G_simplified, G_full).
End load_osm_graph.

(** ** [load_graph_from_pbf]

    networkx keeps a [MultiDiGraph] as a dictionary of node attributes and,
    per node, a dictionary of successors, per successor a dictionary from
    key to edge attributes; dictionaries keep insertion order.  A
    dictionary with integer keys is an association list here. *)

Fixpoint dict_get {V : Type} (d : list (Z * V)) (k : Z) : option V :=
  match d with
  | [] => None
  | (k', v) :: d' => if bool_decide (k' = k) then Some v else dict_get d' k
  end.

(** [d[k] = v]: in place when the key is there, at the end otherwise. *)
Fixpoint dict_set {V : Type} (d : list (Z * V)) (k : Z) (v : V) : list (Z * V) :=
  match d with
  | [] => [(k, v)]
  | (k', v') :: d' =>
      if bool_decide (k' = k) then (k, v) :: d' else (k', v') :: dict_set d' k v
  end.

Notation keydict := (list (Z * edge_attrs)).
Notation successors := (list (Z * keydict)).

Record nx_graph : Type := {
  nx_node : list (Z * node_attrs);
  nx_adj : list (Z * successors)
}.

(** [nx.MultiDiGraph()] *)
Definition nx_empty : nx_graph := {| nx_node := []; nx_adj := [] |}.

(** [G.add_node(n, **attr)] *)
Definition add_node (G : nx_graph) (n : Z) (attr : node_attrs) : nx_graph :=
  match dict_get (nx_adj G) n with
  | None =>
      {| nx_node := dict_set (nx_node G) n attr;
         nx_adj := dict_set (nx_adj G) n [] |}
  | Some _ =>
      {| nx_node := dict_set (nx_node G) n (attr ∪ default ∅ (dict_get (nx_node G) n));
         nx_adj := nx_adj G |}
  end.

(** The loop [while key in keydict: key += 1] of [new_edge_key]; it ends
    within [length keydict] rounds. *)
Fixpoint first_free_key (fuel : nat) (kd : keydict) (key : Z) : Z :=
  match fuel with
  | O => key
  | S fuel' =>
      match dict_get kd key with
      | Some _ => first_free_key fuel' kd (key + 1)
      | None => key
      end
  end.

(** [G.new_edge_key(u, v)] *)
Definition new_edge_key (G : nx_graph) (u v : Z) : Z :=
  match dict_get (nx_adj G) u ≫= λ succ, dict_get succ v with
  | None => 0
  | Some kd => first_free_key (length kd) kd (Z.of_nat (length kd))
  end.

(** [G.add_edge(u, v, **attr)], with the key left to networkx. *)
Definition add_edge (G : nx_graph) (u v : Z) (attr : edge_attrs) : nx_graph :=
  let G := if dict_get (nx_adj G) u is None then add_node G u ∅ else G in
  let G := if dict_get (nx_adj G) v is None then add_node G v ∅ else G in
  let key := new_edge_key G u v in
  let succ := default [] (dict_get (nx_adj G) u) in
  let kd := default [] (dict_get succ v) in
  let datadict := attr ∪ default ∅ (dict_get kd key) in
  {| nx_node := nx_node G;
     nx_adj := dict_set (nx_adj G) u (dict_set succ v (dict_set kd key datadict)) |}.

(** [G.edges(keys=True, data=True)]: the three nested loops over the
    nodes, their successors and the keys. *)
Definition keydict_edges (u v : Z) (kd : keydict) : list edge :=
  (λ '(key, data), (u, v, key, data)) <$> kd.

Definition successors_edges (u : Z) (succ : successors) : list edge :=
  '(v, kd) ← succ; keydict_edges u v kd.

Definition nx_edges (G : nx_graph) : list edge :=
  '(u, succ) ← nx_adj G; successors_edges u succ.

(** The graph as [graph_to_json] reads it. *)
Definition nx_view (G : nx_graph) : MultiDiGraph :=
  {| G_nodes := nx_node G; G_edges := nx_edges G |}.

(** A row of [nodes_gdf]: [row_lon] and [row_lat] are [None] when the
    frame has no such column; [row_point] is the point geometry, [None]
    when the cell is empty. *)
Record node_row : Type := {
  row_id : Z;
  row_lon : option float;
  row_lat : option float;
  row_point : option (float * float)
}.

(** A row of [edges_gdf]: the columns read with [row.get] and the
    geometry cell. *)
Record edge_row : Type := {
  row_u : Z;
  row_v : Z;
  row_columns : gmap string pyval;
  row_geometry : option pyval
}.

(** Source lines 135-139. *)
Definition add_node_row (G : nx_graph) (row : node_row) : result nx_graph :=
  x ← match row_lon row, row_point row with
      | Some lon, _ => Ok lon
      | None, Some (x, _) => Ok x
      | None, None => Raise (AttributeError "x")
      end;
  y ← match row_lat row, row_point row with
      | Some lat, _ => Ok lat
      | None, Some (_, y) => Ok y
      | None, None => Raise (AttributeError "y")
      end;
  Ok (add_node G (row_id row) (<["x" := x]> (<["y" := y]> ∅))).

(** Source lines 152-162. *)
Definition edge_data (row : edge_row) : edge_attrs :=
  let cols := row_columns row in
  let edge_data : edge_attrs :=
    <["osmid" := default (default (VInt 0) (cols !! "osmid")) (cols !! "id")]>
    (<["length" := default (VFloat 0) (cols !! "length")]>
    (<["name" := default VNone (cols !! "name")]>
    (<["highway" := default VNone (cols !! "highway")]>
    (<["oneway" := default (VBool false) (cols !! "oneway")]> ∅)))) in
  match row_geometry row with
  | Some g => <["geometry" := g]> edge_data
  | None => edge_data
  end.

(** Whether the edge loop takes a row: both ends are nodes. *)
Definition row_accepted (G : nx_graph) (row : edge_row) : bool :=
  bool_decide (is_Some (dict_get (nx_node G) (row_u row))) &&
  bool_decide (is_Some (dict_get (nx_node G) (row_v row))).

(** Source lines 144-164. *)
Definition add_edge_row (G : nx_graph) (row : edge_row) : nx_graph :=
  if row_accepted G row then add_edge G (row_u row) (row_v row) (edge_data row)
  else G.

Definition no_edges_found : exn :=
  ValueError "No edges found in the PBF file for the given area".

Section load_graph_from_pbf.
(** [get_network fs pbf_file bounding_box] is
    [OSM(pbf_file, bounding_box=...).get_network(network_type="driving",
    nodes=True)]: the node rows and the edge rows, [None] when pyrosm finds
    no edge frame.  [simplify_graph] is [ox.simplify_graph]. *)
Context (get_network : file_system → string → option (list float) →
  result (list node_row * option (list edge_row))).
Context (simplify_graph : MultiDiGraph → result MultiDiGraph).

(** Source lines 131-166: the full graph of the rows. *)
Definition build_full_graph (nodes_gdf : list node_row) (edges_gdf : list edge_row)
    : result nx_graph :=
  G_full ← for_each add_node_row nx_empty nodes_gdf;
  Ok (fold_left add_edge_row edges_gdf G_full).

(** Source lines 105-180. *)
Definition load_graph_from_pbf (fs : file_system) (pbf_file : string)
    (bbox : option (list float)) : result (MultiDiGraph * MultiDiGraph) :=
  bounding_box ←
    match bbox with
    | Some ((_ :: _) as bbox) =>
        '(min_lat, min_lon, max_lat, max_lon) ← unpack_bbox bbox;
        Ok (Some [min_lon; min_lat; max_lon; max_lat])
    | _ => Ok None
    end;
  '(nodes_gdf, edges_gdf) ← get_network fs pbf_file bounding_box;
  match edges_gdf with
  | None | Some [] => Raise no_edges_found
  | Some edges_gdf =>
      G_full ← build_full_graph nodes_gdf edges_gdf;
      let G_full := nx_view G_full in
      let G_simplified :=
        match simplify_graph G_full with
        | Ok G => G
        | Raise _ => G_full
        end in
      Ok (G_simplified, G_full)
  end.
End load_graph_from_pbf.

(** What networkx keeps true of a graph built with [add_node] and
    [add_edge]: the two dictionaries have the same keys in the same order,
    no key occurs twice, every successor is a node, and the keys of the
    edges between two nodes are 0, 1, 2, ... in insertion order. *)
Record nx_wf (G : nx_graph) : Prop := {
  wf_node : NoDup (nx_node G).*1;
  wf_adj : (nx_adj G).*1 = (nx_node G).*1;
  wf_succ : ∀ u succ, (u, succ) ∈ nx_adj G → NoDup succ.*1;
  wf_keys : ∀ u succ v kd, (u, succ) ∈ nx_adj G → (v, kd) ∈ succ →
    v ∈ (nx_node G).*1 ∧ kd.*1 = seqZ 0 (Z.of_nat (length kd))
}.

(** Every node carries both coordinates. *)
Definition nodes_have_coordinates (nodes : list (Z * node_attrs)) : Prop :=
  ∀ n data, (n, data) ∈ nodes → is_Some (data !! "y") ∧ is_Some (data !! "x").

(** The rows that the edge loop takes: both ends are among the node
    identifiers [ids]. *)
Definition accepted_rows (ids : list Z) (edges_gdf : list edge_row) : list edge_row :=
  filter (λ row, row_u row ∈ ids ∧ row_v row ∈ ids) edges_gdf.

(** The rows of [before] between the same two nodes, in the same
    direction, as [row]. *)
Definition parallel_rows (before : list edge_row) (row : edge_row) : list edge_row :=
  filter (λ r, row_u r = row_u row ∧ row_v r = row_v row) before.

(** The edges that a multigraph holds for [rows] once the rows of [before]
    are in: the key of an edge counts the rows before it between the same
    two nodes. *)
Fixpoint keyed_edges (before rows : list edge_row) : list edge :=
  match rows with
  | [] => []
  | row :: rows' =>
      (row_u row, row_v row, Z.of_nat (length (parallel_rows before row)), edge_data row)
      :: keyed_edges (before ++ [row]) rows'
  end.

(** The number of edges from [u] to [v]. *)
Definition edge_count (G : nx_graph) (u v : Z) : nat :=
  length (default [] (dict_get (default [] (dict_get (nx_adj G) u)) v)).

(** Sample rows: three nodes, two parallel ways from 1 to 2, one way back
    and one way to a node that is no row. *)
Definition sample_node_rows : list node_row :=
  [{| row_id := 1; row_lon := Some 0%float; row_lat := Some 0%float; row_point := None |};
   {| row_id := 2; row_lon := Some 2%float; row_lat := Some 0%float; row_point := None |};
   {| row_id := 3; row_lon := None; row_lat := None; row_point := Some (0, 2)%float |}].

Definition sample_edge_rows : list edge_row :=
  [{| row_u := 1; row_v := 2; row_columns := {["id" := VInt 10]}; row_geometry := None |};
   {| row_u := 2; row_v := 1; row_columns := {["id" := VInt 10]}; row_geometry := None |};
   {| row_u := 1; row_v := 2; row_columns := {["id" := VInt 11]}; row_geometry := None |};
   {| row_u := 1; row_v := 9; row_columns := {["id" := VInt 12]}; row_geometry := None |}].

(** [l'] is [l] with [x] put in at one place. *)
Definition inserted {A : Type} (x : A) (l l' : list A) : Prop :=
  ∃ pre post, l = pre ++ post ∧ l' = pre ++ x :: post.

(** The graph of the sample rows. *)
Definition sample_full_graph : nx_graph := {|
  nx_node := [(1, <["x" := 0%float]> (<["y" := 0%float]> ∅));
              (2, <["x" := 2%float]> (<["y" := 0%float]> ∅));
              (3, <["x" := 0%float]> (<["y" := 2%float]> ∅))];
  nx_adj :=
    [(1, [(2, [(0, edge_data {| row_u := 1; row_v := 2;
                                row_columns := {["id" := VInt 10]};
                                row_geometry := None |});
               (1, edge_data {| row_u := 1; row_v := 2;
                                row_columns := {["id" := VInt 11]};
                                row_geometry := None |})])]);
     (2, [(1, [(0, edge_data {| row_u := 2; row_v := 1;
                                row_columns := {["id" := VInt 10]};
                                row_geometry := None |})])]);
     (3, [])]
|}.

(** What pyrosm hands over for the sample file. *)
Definition sample_get_network (fs : file_system) (pbf_file : string)
    (bounding_box : option (list float))
    : result (list node_row * option (list edge_row)) :=
  Ok (sample_node_rows, Some sample_edge_rows).

(** The export of the graph of the sample rows. *)
Definition sample_pbf_document : document := {|
  nodes := [{| node_id := "node_1"; lat := 0; lon := 0 |};
            {| node_id := "node_2"; lat := 0; lon := 2 |};
            {| node_id := "node_3"; lat := 2; lon := 0 |}];
  segments :=
    [{| seg_id := "seg_1_2_0"; startNodeId := "node_1"; endNodeId := "node_2";
        lengthMeters := VFloat 0; name := VNone; osmWayIds := [VInt 10];
        geometry := [(0, 0); (0, 2)]%float; oneway := false |};
     {| seg_id := "seg_1_2_1"; startNodeId := "node_1"; endNodeId := "node_2";
        lengthMeters := VFloat 0; name := VNone; osmWayIds := [VInt 11];
        geometry := [(0, 0); (0, 2)]%float; oneway := false |}];
  startingLocation := Some {| node_id := "node_1"; lat := 0; lon := 0 |};
  fullGraphNodes := [{| node_id := "node_1"; lat := 0; lon := 0 |};
                     {| node_id := "node_2"; lat := 0; lon := 2 |};
                     {| node_id := "node_3"; lat := 2; lon := 0 |}];
  fullGraphEdges :=
    [{| fge_u := "node_1"; fge_v := "node_2"; fge_length := VFloat 0 |};
     {| fge_u := "node_1"; fge_v := "node_2"; fge_length := VFloat 0 |};
     {| fge_u := "node_2"; fge_v := "node_1"; fge_length := VFloat 0 |}]
|}.

Definition sample_pbf_args : args :=
  {| osm_file := "riga.osm.pbf"; output_json := "out.json"; bbox := None |}.

Definition sample_pbf_file_system : file_system := {["riga.osm.pbf" := "PBF"]}.

(** Two nodes so far apart that the square of their distance to the
    centroid is no float; no edge. *)
Definition distant_nodes_graph : MultiDiGraph := {|
  G_nodes := [(1, at_lat_lon 1e200 0); (2, at_lat_lon 0 0)];
  G_edges := []
|}.

(** Two parallel streets from node 1 to node 2. *)
Definition parallel_streets_graph : MultiDiGraph := {|
  G_nodes := [(1, at_lat_lon 0 0); (2, at_lat_lon 0 2)];
  G_edges := [(1, 2, 0, {["name" := VStr "Main Street"]});
              (1, 2, 1, {["name" := VStr "High Street"]})]
|}.

(** The rest of a minimum search: the running best is replaced by an item
    whose key is strictly smaller. *)
Definition least_from {A : Type} (key : A → float) (best : A) (rest : list A) : A :=
  fold_left (λ best item, if (key item <? key best)%float then item else best)
    rest best.

(** The value of a key that has one. *)
Definition key_value {A : Type} (key : A → result float) (a : A) : float :=
  match key a with
  | Ok k => k
  | Raise _ => PrimFloat.nan
  end.

(** * Facts about the export *)

(** ** The edge loop *)

Section edge_loop.
Context (G : MultiDiGraph).
Implicit Types (seen : gset (Z * Z * Z)) (es : list edge) (segs : list Segment).

Lemma segment_step_seen seen segs e :
  edge_key e ∈ seen → segment_step G (seen, segs) e = Ok (seen, segs).
Proof.
  destruct e as [[[u v] key] data]; simpl; intros Hin.
  by rewrite bool_decide_eq_true_2.
Qed.

Lemma segment_step_fresh seen segs e :
  edge_key e ∉ seen →
  segment_step G (seen, segs) e =
    (seg ← build_segment G e; Ok (seen ∪ {[edge_key e]}, segs ++ [seg])).
Proof.
  destruct e as [[[u v] key] data]; intros Hin.
  unfold segment_step. by rewrite bool_decide_eq_false_2.
Qed.

Lemma for_each_segment_step es : ∀ seen segs seen' segs',
  for_each (segment_step G) (seen, segs) es = Ok (seen', segs') →
  ∃ built, built_from G (kept_edges seen es) built ∧ segs' = segs ++ built.
Proof.
  induction es as [|e es IH]; intros seen segs seen' segs' Hrun.
  - injection Hrun as <- <-. exists []. split; [constructor | by rewrite app_nil_r].
  - cbn [for_each kept_edges] in *. case_bool_decide as Hin.
    + rewrite segment_step_seen in Hrun by done. by apply IH in Hrun.
    + rewrite segment_step_fresh in Hrun by done.
      destruct (build_segment G e) as [seg|err] eqn:Hseg; [|done].
      apply IH in Hrun as (built & Hbuilt & ->).
      exists (seg :: built). split; [by constructor | by rewrite <-app_assoc].
Qed.

Lemma for_each_segment_step_ok es : ∀ seen segs built,
  built_from G (kept_edges seen es) built →
  ∃ seen', for_each (segment_step G) (seen, segs) es = Ok (seen', segs ++ built).
Proof.
  induction es as [|e es IH]; intros seen segs built Hbuilt.
  - inversion Hbuilt; subst. exists seen. by rewrite app_nil_r.
  - cbn [for_each kept_edges] in *. case_bool_decide as Hin.
    + rewrite segment_step_seen by done. by apply IH.
    + rewrite segment_step_fresh by done.
      inversion Hbuilt as [|? seg ? built' Hseg Hrest]; subst.
      rewrite Hseg. destruct (IH _ (segs ++ [seg]) _ Hrest) as [seen' Hrun].
      exists seen'. cbn. by rewrite Hrun, <-app_assoc.
Qed.

End edge_loop.

Section kept_edges.
Implicit Types (seen : gset (Z * Z * Z)) (es : list edge).

Lemma kept_edges_fresh es : ∀ seen e,
  e ∈ kept_edges seen es → (edge_key e ∉ seen) ∧ e ∈ es.
Proof.
  induction es as [|e0 es IH]; intros seen e; cbn [kept_edges].
  - by intros ?%elem_of_nil.
  - case_bool_decide as Hin.
    + intros [? ?]%IH. split; [done | by right].
    + intros [->|[Hnot ?]%IH]%elem_of_cons; [split; [done | by left]|].
      split; [set_solver | by right].
Qed.

Lemma kept_edges_NoDup es : ∀ seen, NoDup (edge_key <$> kept_edges seen es).
Proof.
  induction es as [|e0 es IH]; intros seen; cbn [kept_edges].
  - constructor.
  - case_bool_decide as Hin; [done|].
    rewrite fmap_cons. constructor; [|done].
    intros (e & Heq & [Hnot _]%kept_edges_fresh)%list_elem_of_fmap.
    set_solver.
Qed.

Lemma kept_edges_keys es : ∀ seen,
  list_to_set (edge_key <$> kept_edges seen es)
  = (list_to_set (edge_key <$> es) : gset (Z * Z * Z)) ∖ seen.
Proof.
  induction es as [|e0 es IH]; intros seen; cbn [kept_edges].
  - set_solver.
  - case_bool_decide as Hin.
    + rewrite IH, fmap_cons, list_to_set_cons. set_solver.
    + rewrite !fmap_cons, !list_to_set_cons, IH.
      apply set_eq; intros k. destruct (decide (k = edge_key e0)); set_solver.
Qed.

Lemma kept_edges_length es : length (kept_edges ∅ es) = distinct_keys es.
Proof.
  unfold distinct_keys.
  rewrite <-(length_fmap edge_key), <-(size_list_to_set (C:=gset (Z * Z * Z)))
    by apply kept_edges_NoDup.
  f_equal. rewrite kept_edges_keys. set_solver.
Qed.

(** The first edge carrying a canonical key is the one that is kept. *)
Lemma kept_edges_first pre e post : ∀ seen,
  edge_key e ∉ seen →
  (∀ e', e' ∈ pre → edge_key e' ≠ edge_key e) →
  e ∈ kept_edges seen (pre ++ e :: post).
Proof.
  induction pre as [|p pre IH]; intros seen Hnot Hpre; cbn [app kept_edges].
  - rewrite bool_decide_eq_false_2 by done. by left.
  - assert (edge_key p ≠ edge_key e) by (apply Hpre; by left).
    case_bool_decide.
    + apply IH; [done|]. intros e' ?. apply Hpre. by right.
    + right. apply IH; [set_solver|]. intros e' ?. apply Hpre. by right.
Qed.

(** Every canonical key of [es] is carried by a kept edge. *)
Lemma kept_edges_complete es e :
  e ∈ es → ∃ e', e' ∈ kept_edges ∅ es ∧ edge_key e' = edge_key e.
Proof.
  intros He.
  assert (edge_key e ∈ (list_to_set (edge_key <$> kept_edges ∅ es) : gset _)) as Hin.
  { rewrite kept_edges_keys. apply elem_of_difference. split; [|set_solver].
    apply elem_of_list_to_set. by apply list_elem_of_fmap_2. }
  apply elem_of_list_to_set, list_elem_of_fmap in Hin as (e' & ? & ?). eauto.
Qed.
End kept_edges.

(** ** Identifiers are read back without ambiguity

    A decimal numeral holds no underscore, so [segment_name] determines
    the three numbers it was formatted from. *)

Lemma pretty_N_go_underscore (x : N) : ∀ s,
  has_underscore s = false → has_underscore (pretty_N_go x s) = false.
Proof.
  induction (N.lt_wf_0 x) as [x _ IH]; intros s Hs.
  assert (x = 0 ∨ 0 < x)%N as [->|Hpos] by lia; [done|].
  rewrite pretty_N_go_step by done. apply IH; [by apply N.div_lt|].
  cbn [has_underscore]. rewrite Hs, orb_false_r.
  apply bool_decide_eq_false_2. unfold pretty_N_char. by repeat case_match.
Qed.

Lemma pretty_Z_underscore (z : Z) : has_underscore (pretty z) = false.
Proof.
  assert (∀ p : positive, has_underscore (pretty p) = false) as Hpos.
  { intros p. unfold pretty, pretty_positive, pretty, pretty_N.
    case_decide; [done|]. by apply pretty_N_go_underscore. }
  destruct z as [|p|p]; [done | apply Hpos |].
  change (pretty (Z.neg p)) with ("-" +:+ pretty p). cbn. apply Hpos.
Qed.

Lemma underscore_split (a a' r r' : string) :
  has_underscore a = false → has_underscore a' = false →
  a +:+ String "_" r = a' +:+ String "_" r' → a = a' ∧ r = r'.
Proof.
  revert a'. induction a as [|c a IH]; intros [|c' a']; cbn; intros Ha Ha' Heq.
  - by injection Heq as ->.
  - injection Heq as <- _. by rewrite bool_decide_eq_true_2 in Ha'.
  - injection Heq as -> _. by rewrite bool_decide_eq_true_2 in Ha.
  - injection Heq as -> Heq.
    apply orb_false_iff in Ha as [_ Ha]. apply orb_false_iff in Ha' as [_ Ha'].
    destruct (IH a' Ha Ha' Heq) as [-> ->]. done.
Qed.

Lemma segment_name_inj (u v key u' v' key' : Z) :
  segment_name u v key = segment_name u' v' key' → u = u' ∧ v = v' ∧ key = key'.
Proof.
  unfold segment_name. cbn. intros [= Heq].
  apply underscore_split in Heq as [Hu Heq]; [|apply pretty_Z_underscore..].
  apply underscore_split in Heq as [Hv Hkey]; [|apply pretty_Z_underscore..].
  by apply (inj pretty) in Hu, Hv, Hkey.
Qed.

Lemma node_name_inj (n n' : Z) : node_name n = node_name n' → n = n'.
Proof.
  unfold node_name. intros Heq. apply (inj pretty).
  induction "node_" as [|c p IH]; [done|]. apply IH. by injection Heq.
Qed.

Lemma build_segment_id G u v key data s :
  build_segment G (u, v, key, data) = Ok s →
  seg_id s = segment_name u v key ∧ startNodeId s = node_name u ∧
  endNodeId s = node_name v.
Proof.
  unfold build_segment. destruct (get_geometry G u v data); [|done].
  by intros [= <-].
Qed.

Lemma build_segment_canonical_key G e s c :
  build_segment G e = Ok s → canonical_key s c ↔ c = edge_key e.
Proof.
  destruct e as [[[u v] key] data]. intros (Hid & _)%build_segment_id. split.
  - intros (u' & v' & key' & Hid' & ->). rewrite Hid in Hid'.
    by apply segment_name_inj in Hid' as (-> & -> & ->).
  - intros ->. by exists u, v, key.
Qed.

(** ** What a successful run returns *)

Lemma graph_to_json_inv `{Runtime} Gs Gf doc :
  graph_to_json Gs Gf = Ok doc →
  nodes doc = project_node <$> G_nodes Gs ∧
  built_from Gs (kept_edges ∅ (G_edges Gs)) (segments doc) ∧
  starting_location (nodes doc) = Ok (startingLocation doc) ∧
  fullGraphNodes doc = project_node <$> G_nodes (default Gs Gf) ∧
  fullGraphEdges doc = full_graph_edge <$> G_edges (default Gs Gf).
Proof.
  unfold graph_to_json.
  destruct (for_each _ _ _) as [[seen segs]|err] eqn:Hloop; [|done].
  apply for_each_segment_step in Hloop as (built & Hbuilt & ->). cbn.
  destruct (starting_location _) as [loc|] eqn:Hloc; [|done]. cbn.
  by intros [= <-].
Qed.

(** The run succeeds as soon as every kept edge yields a segment and the
    starting location can be computed. *)
Lemma graph_to_json_ok `{Runtime} Gs Gf segs loc :
  built_from Gs (kept_edges ∅ (G_edges Gs)) segs →
  starting_location (project_node <$> G_nodes Gs) = Ok loc →
  ∃ doc, graph_to_json Gs Gf = Ok doc ∧ segments doc = segs.
Proof.
  intros Hbuilt Hloc. unfold graph_to_json.
  destruct (for_each_segment_step_ok Gs _ ∅ [] _ Hbuilt) as [seen' ->]. cbn.
  rewrite Hloc. cbn. eexists. split; [done|]. done.
Qed.

Lemma emitted_segment_edge `{Runtime} Gs Gf doc i s :
  graph_to_json Gs Gf = Ok doc → segments doc !! i = Some s →
  ∃ e, kept_edges ∅ (G_edges Gs) !! i = Some e ∧ build_segment Gs e = Ok s.
Proof.
  intros (_ & Hbuilt & _)%graph_to_json_inv Hs.
  by eapply Forall2_lookup_r in Hbuilt.
Qed.

Lemma kept_edge_segment `{Runtime} Gs Gf doc i e :
  graph_to_json Gs Gf = Ok doc → kept_edges ∅ (G_edges Gs) !! i = Some e →
  ∃ s, segments doc !! i = Some s ∧ build_segment Gs e = Ok s.
Proof.
  intros (_ & Hbuilt & _)%graph_to_json_inv He.
  by eapply Forall2_lookup_l in Hbuilt.
Qed.

Lemma segments_key_inj `{Runtime} Gs Gf doc i j s s' c :
  graph_to_json Gs Gf = Ok doc →
  segments doc !! i = Some s → segments doc !! j = Some s' →
  canonical_key s c → canonical_key s' c → i = j.
Proof.
  intros Hrun Hi Hj Hc Hc'.
  destruct (emitted_segment_edge _ _ _ _ _ Hrun Hi) as (e & He & Hs).
  destruct (emitted_segment_edge _ _ _ _ _ Hrun Hj) as (e' & He' & Hs').
  apply (build_segment_canonical_key _ _ _ _ Hs) in Hc.
  apply (build_segment_canonical_key _ _ _ _ Hs') in Hc'.
  subst c. eapply NoDup_lookup; [apply (kept_edges_NoDup (G_edges Gs) ∅)|..].
  - by rewrite list_lookup_fmap, He.
  - rewrite list_lookup_fmap, He'. simpl. congruence.
Qed.

(** The canonical key of every edge is the key of exactly one entry. *)
Lemma edge_emitted_once `{Runtime} Gs Gf doc e :
  graph_to_json Gs Gf = Ok doc → e ∈ G_edges Gs → emitted_once doc (edge_key e).
Proof.
  intros Hrun (e' & [i Hi]%list_elem_of_lookup & Hkey)%kept_edges_complete.
  destruct (kept_edge_segment _ _ _ _ _ Hrun Hi) as (s & Hs & Hbuild).
  exists i, s. split_and!; [done|..].
  - apply (build_segment_canonical_key _ _ _ _ Hbuild). by rewrite Hkey.
  - intros j s' Hj Hc.
    apply (segments_key_inj Gs Gf doc j i s' s (edge_key e) Hrun Hj Hs Hc).
    apply (build_segment_canonical_key _ _ _ _ Hbuild). by rewrite Hkey.
Qed.

Lemma build_segment_taken_from G e s :
  build_segment G e = Ok s ↔ taken_from G e s.
Proof.
  destruct e as [[[u v] key] data]. unfold build_segment, taken_from. split.
  - destruct (get_geometry G u v data) as [g|]; [|done]. by intros [= <-].
  - intros (? & ? & ? & ? & ? & ? & -> & ?). destruct s; simplify_eq/=. done.
Qed.

(** Every entry of [segments] was built from an edge of the simplified graph. *)
Lemma emitted_segment_source `{Runtime} Gs Gf doc s :
  graph_to_json Gs Gf = Ok doc → s ∈ segments doc →
  ∃ e, e ∈ G_edges Gs ∧ build_segment Gs e = Ok s.
Proof.
  intros Hrun [i Hi]%list_elem_of_lookup.
  destruct (emitted_segment_edge _ _ _ _ _ Hrun Hi) as (e & He & Hs).
  exists e. split; [|done].
  apply list_elem_of_lookup_2 in He. by apply kept_edges_fresh in He as [_ ?].
Qed.

Lemma scenario_graph_runs : graph_to_json scenario_graph None = Ok scenario_document.
Proof. vm_compute. reflexivity. Qed.

Lemma scenario_graph_reversed_runs :
  ∃ doc, graph_to_json scenario_graph_reversed None = Ok doc ∧
    seg_id <$> segments doc = ["seg_2_1_0"].
Proof. eexists. split; [vm_compute; reflexivity | reflexivity]. Qed.

(** ** The geometry of an edge *)

Lemma flip_coords_spec coords points :
  flip_coords coords = Ok points ↔ coords = flipped <$> points.
Proof.
  revert points. induction coords as [|c coords IH]; intros points; cbn.
  - split; [by intros [= <-] | by destruct points].
  - split.
    + destruct c as [|lon [|lat [|? ?]]]; try done. cbn.
      destruct (flip_coords coords) as [ps|] eqn:Hps; [|done].
      intros [= <-]. cbn. f_equal. by apply IH.
    + destruct points as [|[lat lon] ps]; [done|]. intros [= -> Hcoords].
      apply IH in Hcoords. cbn. by rewrite Hcoords.
Qed.

Lemma nodes_getitem_elem (l : list (Z * node_attrs)) n data :
  nodes_getitem l n = Ok data → (n, data) ∈ l.
Proof.
  induction l as [|[m d] l IH]; [done|]. cbn. case_bool_decide as Hm.
  - intros [= <-]. subst. by left.
  - intros ?. right. by apply IH.
Qed.

Lemma get_geometry_no_geometry G u v data points :
  data !! "geometry" = None →
  get_geometry G u v data = Ok points ↔
  ∃ start_node end_node y1 x1 y2 x2,
    nodes_getitem (G_nodes G) u = Ok start_node ∧
    nodes_getitem (G_nodes G) v = Ok end_node ∧
    start_node !! "y" = Some y1 ∧ start_node !! "x" = Some x1 ∧
    end_node !! "y" = Some y2 ∧ end_node !! "x" = Some x2 ∧
    points = [(y1, x1); (y2, x2)].
Proof.
  intros Hnone. unfold get_geometry. rewrite Hnone. split.
  - destruct (nodes_getitem _ u) as [start_node|]; [|done].
    destruct (nodes_getitem _ v) as [end_node|]; [|done]. cbn. unfold getitem.
    destruct (start_node !! "y") as [y1|] eqn:?; cbn; [|done].
    destruct (start_node !! "x") as [x1|] eqn:?; cbn; [|done].
    destruct (end_node !! "y") as [y2|] eqn:?; cbn; [|done].
    destruct (end_node !! "x") as [x2|] eqn:?; cbn; [|done].
    intros [= <-]. by exists start_node, end_node, y1, x1, y2, x2.
  - intros (start_node & end_node & y1 & x1 & y2 & x2 & -> & -> & Hy1 & Hx1 & Hy2 & Hx2 & ->).
    cbn. unfold getitem. by rewrite Hy1, Hx1, Hy2, Hx2.
Qed.

Lemma get_geometry_explicit G u v data g points :
  data !! "geometry" = Some g →
  get_geometry G u v data = Ok points ↔ g = VLineString (flipped <$> points).
Proof.
  intros Hsome. unfold get_geometry. rewrite Hsome.
  destruct g; cbn; try (split; [done | by intros [=]]).
  rewrite flip_coords_spec. naive_solver.
Qed.

(** The export returns on every graph of well-formed edges on whose nodes
    the starting location can be computed. *)
Lemma graph_to_json_total `{Runtime} Gs Gf :
  Forall (edge_well_formed Gs) (G_edges Gs) →
  (∃ loc, starting_location (project_node <$> G_nodes Gs) = Ok loc) →
  ∃ doc, graph_to_json Gs Gf = Ok doc.
Proof.
  intros Hwf [loc Hloc].
  assert (∃ segs, built_from Gs (kept_edges ∅ (G_edges Gs)) segs) as [segs Hsegs].
  { assert (Forall (edge_well_formed Gs) (kept_edges ∅ (G_edges Gs))) as Hkept.
    { apply Forall_forall. intros e [_ He]%kept_edges_fresh.
      by eapply Forall_forall in Hwf. }
    induction Hkept as [|[[[u v] key] data] es He _ [segs IH]]; [by exists []; constructor|].
    assert (∃ points, get_geometry Gs u v data = Ok points) as [points Hpoints].
    { unfold edge_well_formed in He. destruct (data !! "geometry") as [g|] eqn:Hg.
      - destruct He as [points ->]. exists points. by eapply get_geometry_explicit.
      - destruct He as [(d1 & y1 & x1 & ? & ? & ?) (d2 & y2 & x2 & ? & ? & ?)].
        eexists. eapply get_geometry_no_geometry; [done|]. naive_solver. }
    eexists (_ :: segs). constructor; [|done]. unfold build_segment.
    by rewrite Hpoints. }
  destruct (graph_to_json_ok Gs Gf segs loc Hsegs Hloc) as (doc & ? & _). by exists doc.
Qed.

(** ** Deduplication *)

(** C1: no two entries of the emitted [segments] share a canonical key
    (sorted endpoint pair plus disambiguating key), and a link stored as a
    forward and a reverse edge with the same key yields exactly one entry;
    the statement does not depend on the order of the two edges. *)
Theorem segments_canonical_keys_unique `{Runtime} Gs Gf doc :
  graph_to_json Gs Gf = Ok doc →
  (∀ i j s s' c,
    segments doc !! i = Some s → segments doc !! j = Some s' →
    canonical_key s c → canonical_key s' c → i = j) ∧
  (∀ u v key d d',
    (u, v, key, d) ∈ G_edges Gs → (v, u, key, d') ∈ G_edges Gs →
    emitted_once doc (edge_id u v key)).
Proof.
  intros Hrun. split.
  - intros i j s s' c. by apply segments_key_inj with Gs Gf.
  - intros u v key d d' Hfwd _.
    apply (edge_emitted_once _ _ _ (u, v, key, d) Hrun Hfwd).
Qed.

Lemma segments_canonical_keys_unique_witness :
  graph_to_json scenario_graph None = Ok scenario_document ∧
  emitted_once scenario_document (edge_id 1 2 0).
Proof.
  assert (graph_to_json scenario_graph None = Ok scenario_document) as Hrun
    by (vm_compute; reflexivity).
  split; [exact Hrun|].
  apply (proj2 (segments_canonical_keys_unique scenario_graph None _ Hrun)
    1 2 0 {["length" := VFloat 10]} {["length" := VFloat 10]}).
  - apply list_elem_of_here.
  - apply list_elem_of_further, list_elem_of_here.
Defined.

Lemma edge_id_cases (a b k u v key : Z) :
  edge_id a b k = edge_id u v key →
  (a, b, k) = (u, v, key) ∨ (a, b, k) = (v, u, key).
Proof.
  unfold edge_id. intros [= Hmin Hmax ->].
  destruct (decide (a = u)) as [->|]; [left | right]; f_equal; f_equal; lia.
Qed.

Lemma edge_triple_lookup (es : list edge) i u v key d :
  es !! i = Some (u, v, key, d) → (edge_triple <$> es) !! i = Some (u, v, key).
Proof. intros Hi. rewrite list_lookup_fmap. by destruct (es !! i); simplify_eq. Qed.

(** C9: the export returns on every graph whose edges can be turned into
    segments and on whose nodes the starting location can be computed, and
    whenever it returns, the number of entries of [segments]
    is the number of distinct canonical keys among the edges of the
    simplified graph, every such key is the key of exactly one entry, and
    an edge is left out only if an earlier edge carries its canonical
    key. *)
Theorem segments_one_per_canonical_key `{Runtime} Gs Gf :
  (Forall (edge_well_formed Gs) (G_edges Gs) →
    (∃ loc, starting_location (project_node <$> G_nodes Gs) = Ok loc) →
    ∃ doc, graph_to_json Gs Gf = Ok doc) ∧
  ∀ doc, graph_to_json Gs Gf = Ok doc →
    length (segments doc) = distinct_keys (G_edges Gs) ∧
    (∀ e, e ∈ G_edges Gs → emitted_once doc (edge_key e)) ∧
    (∀ pre e post, G_edges Gs = pre ++ e :: post →
      (∀ e', e' ∈ pre → edge_key e' ≠ edge_key e) →
      ∃ s, s ∈ segments doc ∧ build_segment Gs e = Ok s).
Proof.
  split; [apply graph_to_json_total|]. intros doc Hrun. split_and!.
  - destruct (graph_to_json_inv _ _ _ Hrun) as (_ & Hbuilt & _).
    rewrite <-(Forall2_length _ _ _ Hbuilt). apply kept_edges_length.
  - intros e. by apply edge_emitted_once with Gf.
  - intros pre e post Hes Hpre.
    assert (e ∈ kept_edges ∅ (G_edges Gs)) as [k Hk]%list_elem_of_lookup.
    { rewrite Hes. apply kept_edges_first; [set_solver | done]. }
    destruct (kept_edge_segment _ _ _ _ _ Hrun Hk) as (s & Hs & Hbuild).
    exists s. split; [by eapply list_elem_of_lookup_2 | done].
Qed.

Lemma segments_one_per_canonical_key_witness :
  Forall (edge_well_formed scenario_graph) (G_edges scenario_graph) ∧
  starting_location (project_node <$> G_nodes scenario_graph)
    = Ok (Some {| node_id := "node_1"; lat := 0; lon := 0 |}) ∧
  ∃ doc, graph_to_json scenario_graph None = Ok doc ∧
    length (segments doc) = distinct_keys (G_edges scenario_graph).
Proof.
  assert (Forall (edge_well_formed scenario_graph) (G_edges scenario_graph)) as Hwf.
  { repeat constructor; by eexists _, _, _. }
  assert (starting_location (project_node <$> G_nodes scenario_graph)
    = Ok (Some {| node_id := "node_1"; lat := 0; lon := 0 |})) as Hloc
    by (vm_compute; reflexivity).
  split; [exact Hwf|]. split; [exact Hloc|].
  destruct (segments_one_per_canonical_key scenario_graph None) as [Hruns Hcount].
  destruct (Hruns Hwf (ex_intro _ _ Hloc)) as [doc Hrun]. exists doc. split; [exact Hrun|].
  apply (proj1 (Hcount doc Hrun)).
Defined.

(** C10: when the directed edges (u, v, key) and (v, u, key) both occur,
    the single entry with their canonical key takes its identifier
    [seg_u_v_key], its start and end node and all its attributes from the
    one that comes first in iteration order, and not from the other. *)
Theorem first_direction_survives `{Runtime} Gs Gf doc i j u v key d d' :
  graph_to_json Gs Gf = Ok doc →
  NoDup (edge_triple <$> G_edges Gs) →
  G_edges Gs !! i = Some (u, v, key, d) →
  G_edges Gs !! j = Some (v, u, key, d') →
  (i < j)%nat →
  ∃ k s, segments doc !! k = Some s ∧
    (∀ k' s', segments doc !! k' = Some s' →
      canonical_key s' (edge_id u v key) → k' = k) ∧
    taken_from Gs (u, v, key, d) s ∧
    seg_id s ≠ segment_name v u key ∧
    startNodeId s ≠ node_name v.
Proof.
  intros Hrun Hnodup Hi Hj Hlt.
  assert (u ≠ v) as Huv.
  { intros ->. assert (i = j); [|lia].
    eapply NoDup_lookup; [exact Hnodup|..]; by eapply edge_triple_lookup. }
  assert ((u, v, key, d) ∈ kept_edges ∅ (G_edges Gs)) as [k Hk]%list_elem_of_lookup.
  { rewrite <-(take_drop_middle _ _ _ Hi). apply kept_edges_first; [set_solver|].
    intros [[[a b] key'] data'] [i' Hi']%list_elem_of_lookup Hkey.
    apply lookup_take_Some in Hi' as [Hi' Hlt'].
    apply edge_triple_lookup in Hi' as Htriple.
    apply edge_id_cases in Hkey as [Heq|Heq]; rewrite Heq in Htriple.
    - assert (i' = i); [|lia].
      eapply NoDup_lookup; [exact Hnodup|exact Htriple|].
      by eapply edge_triple_lookup.
    - assert (i' = j); [|lia].
      eapply NoDup_lookup; [exact Hnodup|exact Htriple|].
      by eapply edge_triple_lookup. }
  destruct (kept_edge_segment _ _ _ _ _ Hrun Hk) as (s & Hs & Hbuild).
  pose proof (build_segment_id _ _ _ _ _ _ Hbuild) as (Hid & Hstart & _).
  exists k, s. split_and!; [done|..].
  - intros k' s' Hk' Hc.
    apply (segments_key_inj Gs Gf doc k' k s' s _ Hrun Hk' Hs Hc).
    by apply (build_segment_canonical_key _ _ _ _ Hbuild).
  - by apply build_segment_taken_from.
  - rewrite Hid. by intros (? & ? & _)%segment_name_inj.
  - rewrite Hstart. by intros ?%node_name_inj.
Qed.

Lemma first_direction_survives_witness :
  graph_to_json scenario_graph_reversed None
    = Ok {| nodes := scenario_nodes;
            segments :=
              [{| seg_id := "seg_2_1_0"; startNodeId := "node_2";
                  endNodeId := "node_1"; lengthMeters := VFloat 10;
                  name := VNone; osmWayIds := [];
                  geometry := [(0, 2); (0, 0)]%float; oneway := false |}];
            startingLocation := startingLocation scenario_document;
            fullGraphNodes := scenario_nodes;
            fullGraphEdges := rev (fullGraphEdges scenario_document) |} ∧
  ∃ doc k s, graph_to_json scenario_graph_reversed None = Ok doc ∧
    segments doc !! k = Some s ∧
    taken_from scenario_graph_reversed (2, 1, 0, {["length" := VFloat 10]}) s ∧
    seg_id s ≠ segment_name 1 2 0.
Proof.
  match goal with |- ?run = Ok ?doc ∧ _ =>
    assert (run = Ok doc) as Hrun by (vm_compute; reflexivity) end.
  split; [exact Hrun|].
  destruct (first_direction_survives scenario_graph_reversed None _ 0 1 2 1 0
    {["length" := VFloat 10]} {["length" := VFloat 10]} Hrun)
    as (k & s & Hs & _ & Htaken & Hid & _).
  - apply (bool_decide_unpack (NoDup _)). vm_compute. exact I.
  - reflexivity.
  - reflexivity.
  - lia.
  - eexists _, k, s. split; [exact Hrun|]. split; [exact Hs|]. split; [exact Htaken|exact Hid].
Defined.

(** ** The full graph *)

(** C5: [fullGraphEdges] holds one (u, v, length) entry per directed edge
    of the full graph, in iteration order, parallel and reverse edges
    included; a pair of opposite edges (u, v, key) and (v, u, key), as
    networkx keys them, gives two entries there and one in [segments]. *)
Theorem full_graph_edges_not_deduplicated `{Runtime} Gs Gf doc :
  graph_to_json Gs Gf = Ok doc →
  fullGraphEdges doc = full_graph_edge <$> G_edges (default Gs Gf) ∧
  length (fullGraphEdges doc) = length (G_edges (default Gs Gf)) ∧
  (∀ u v key d d',
    G_edges Gs = [(u, v, key, d); (v, u, key, d')] →
    G_edges (default Gs Gf) = G_edges Gs →
    length (fullGraphEdges doc) = 2%nat ∧ length (segments doc) = 1%nat).
Proof.
  intros Hrun.
  destruct (graph_to_json_inv _ _ _ Hrun) as (_ & Hbuilt & _ & _ & Hfull).
  split_and!; [done | by rewrite Hfull, length_fmap |].
  intros u v key d d' Hes Hsame. split; [by rewrite Hfull, Hsame, Hes|].
  rewrite <-(Forall2_length _ _ _ Hbuilt), Hes. cbn.
  rewrite bool_decide_eq_false_2 by set_solver.
  rewrite bool_decide_eq_true_2; [done|].
  unfold edge_id. rewrite Z.min_comm, Z.max_comm. set_solver.
Qed.

Lemma full_graph_edges_not_deduplicated_witness :
  graph_to_json scenario_graph None = Ok scenario_document ∧
  length (fullGraphEdges scenario_document) = 2%nat ∧
  length (segments scenario_document) = 1%nat.
Proof.
  assert (graph_to_json scenario_graph None = Ok scenario_document) as Hrun
    by (vm_compute; reflexivity).
  split; [exact Hrun|].
  apply (proj2 (proj2 (full_graph_edges_not_deduplicated scenario_graph None _ Hrun))
    1 2 0 {["length" := VFloat 10]} {["length" := VFloat 10]});
    reflexivity.
Defined.

(** ** Attribute normalization *)

(** C6, as the code has it: [osmWayIds] is always a list; a list attribute
    is kept as it is, any other value is wrapped in a one-element list,
    and the list is empty when the attribute is absent (or is itself the
    empty list). *)
Theorem osm_way_ids_normalized `{Runtime} Gs Gf doc s :
  graph_to_json Gs Gf = Ok doc → s ∈ segments doc →
  ∃ u v key data, (u, v, key, data) ∈ G_edges Gs ∧
    seg_id s = segment_name u v key ∧
    match data !! "osmid" with
    | None => osmWayIds s = []
    | Some (VList l) => osmWayIds s = l
    | Some x => osmWayIds s = [x]
    end ∧
    (osmWayIds s = [] ↔
      data !! "osmid" = None ∨ data !! "osmid" = Some (VList [])).
Proof.
  intros Hrun Hs.
  destruct (emitted_segment_source _ _ _ _ Hrun Hs) as ([[[u v] key] data] & He & Hb).
  apply build_segment_taken_from in Hb as (Hid & _ & _ & _ & _ & Hosm & _).
  exists u, v, key, data. split_and!; [done..| |]; rewrite Hosm; unfold get_osm_ids.
  - by destruct (data !! "osmid") as [[]|].
  - destruct (data !! "osmid") as [[| | | | |[]|]|]; simpl; naive_solver.
Qed.

Lemma osm_way_ids_normalized_witness :
  graph_to_json scenario_graph None = Ok scenario_document ∧
  ∃ u v key data, (u, v, key, data) ∈ G_edges scenario_graph ∧
    seg_id scenario_segment = segment_name u v key ∧
    (osmWayIds scenario_segment = [] ↔
      data !! "osmid" = None ∨ data !! "osmid" = Some (VList [])).
Proof.
  assert (graph_to_json scenario_graph None = Ok scenario_document) as Hrun
    by (vm_compute; reflexivity).
  split; [exact Hrun|].
  destruct (osm_way_ids_normalized scenario_graph None _ scenario_segment Hrun)
    as (u & v & key & data & He & Hid & _ & Hempty).
  - apply list_elem_of_here.
  - by exists u, v, key, data.
Defined.

(** C6 as stated fails: an edge without an [osmid] attribute gets the
    empty list. *)
Lemma osm_way_ids_empty_when_absent :
  graph_to_json scenario_graph None = Ok scenario_document ∧
  segments scenario_document = [scenario_segment] ∧
  G_edges scenario_graph !! 0%nat = Some (1, 2, 0, {["length" := VFloat 10]}) ∧
  ({["length" := VFloat 10]} : edge_attrs) !! "osmid" = None ∧
  osmWayIds scenario_segment = [].
Proof. split_and!; [vm_compute; reflexivity | done..]. Qed.

Lemma oneway_element_true (o : pyval) :
  oneway_element o = true ↔
  o = VBool true ∨ ∃ s, o = VStr s ∧ lower s ∈ oneway_vocabulary.
Proof.
  destruct o as [|b|z|f|s|l|g]; cbn; try by naive_solver.
  unfold in_oneway_vocabulary. rewrite bool_decide_eq_true. naive_solver.
Qed.

(** C2, as the code has it: a list is one-way iff one of its elements is
    the boolean true or a string whose lower case is in the vocabulary; a
    string is one-way iff its lower case is in the vocabulary; a boolean is
    kept as it is; an absent attribute and a value of any other type give
    false.  The flag of an emitted segment is this value. *)
Theorem oneway_normalized (data : edge_attrs) :
  match data !! "oneway" with
  | Some (VList l) =>
      get_oneway data = true ↔
      ∃ o, o ∈ l ∧ (o = VBool true ∨ ∃ s, o = VStr s ∧ lower s ∈ oneway_vocabulary)
  | Some (VStr s) => get_oneway data = true ↔ lower s ∈ oneway_vocabulary
  | Some (VBool b) => get_oneway data = b
  | Some (VNone | VInt _ | VFloat _ | VLineString _) | None => get_oneway data = false
  end ∧
  (∀ G u v key s, build_segment G (u, v, key, data) = Ok s → oneway s = get_oneway data) ∧
  get_oneway {["oneway" := VList [VBool true; VBool false]]} = true ∧
  get_oneway {["oneway" := VList [VBool false; VBool false]]} = false ∧
  get_oneway {["oneway" := VStr "-1"]} = true ∧
  get_oneway ∅ = false.
Proof.
  split_and!; try done.
  - unfold get_oneway. destruct (data !! "oneway") as [[|b|z|f|s|l|g]|]; cbn; try done.
    + unfold in_oneway_vocabulary. by rewrite bool_decide_eq_true.
    + rewrite existsb_exists. setoid_rewrite oneway_element_true.
      by setoid_rewrite <-list_elem_of_In.
  - intros G u v key s Hs.
    by apply build_segment_taken_from in Hs as (_ & _ & _ & _ & _ & _ & _ & ?).
Qed.

(** C2 as stated fails: a plain boolean is neither a list nor a string,
    and the flag of a one-way street stored as [True] is true. *)
Lemma oneway_plain_boolean_kept :
  ∃ doc s, graph_to_json oneway_street_graph None = Ok doc ∧
    segments doc = [s] ∧
    G_edges oneway_street_graph = [(1, 2, 0, {["oneway" := VBool true]})] ∧
    ({["oneway" := VBool true]} : edge_attrs) !! "oneway" = Some (VBool true) ∧
    oneway s = true.
Proof. eexists _, _. split_and!; [vm_compute; reflexivity | done..]. Qed.

(** ** The geometry of a segment *)

(** C3, as the code has it: an explicit geometry is copied point by point
    in its order with (lon, lat) turned into (lat, lon); without one the
    geometry is the two points made of the coordinates of the start node
    and of the end node, as exported in [nodes]; the geometry is empty
    exactly when the explicit geometry has no point. *)
Theorem segment_geometry `{Runtime} Gs Gf doc s :
  graph_to_json Gs Gf = Ok doc → s ∈ segments doc →
  ∃ u v key data, (u, v, key, data) ∈ G_edges Gs ∧
    seg_id s = segment_name u v key ∧
    startNodeId s = node_name u ∧ endNodeId s = node_name v ∧
    match data !! "geometry" with
    | Some g => g = VLineString ((λ p, [p.2; p.1]) <$> geometry s)
    | None => ∃ start_node end_node y1 x1 y2 x2,
        geometry s = [(y1, x1); (y2, x2)] ∧
        nodes_getitem (G_nodes Gs) u = Ok start_node ∧
        nodes_getitem (G_nodes Gs) v = Ok end_node ∧
        start_node !! "y" = Some y1 ∧ start_node !! "x" = Some x1 ∧
        end_node !! "y" = Some y2 ∧ end_node !! "x" = Some x2 ∧
        {| node_id := startNodeId s; lat := y1; lon := x1 |} ∈ nodes doc ∧
        {| node_id := endNodeId s; lat := y2; lon := x2 |} ∈ nodes doc
    end ∧
    (geometry s = [] ↔ data !! "geometry" = Some (VLineString [])).
Proof.
  intros Hrun Hs.
  destruct (emitted_segment_source _ _ _ _ Hrun Hs) as ([[[u v] key] data] & He & Hb).
  apply build_segment_taken_from in Hb as (Hid & Hstart & Hend & _ & _ & _ & Hgeo & _).
  destruct (graph_to_json_inv _ _ _ Hrun) as (Hnodes & _).
  exists u, v, key, data. split_and!; [done..| |].
  - destruct (data !! "geometry") as [g|] eqn:Hg.
    + by eapply get_geometry_explicit in Hgeo.
    + eapply get_geometry_no_geometry in Hgeo
        as (sn & en & y1 & x1 & y2 & x2 & Hsn & Hen & Hy1 & Hx1 & Hy2 & Hx2 & Hpoints);
        [|done].
      exists sn, en, y1, x1, y2, x2. split_and!; try done.
      * rewrite Hnodes, Hstart. apply list_elem_of_fmap.
        exists (u, sn). split; [|by apply nodes_getitem_elem].
        cbn. by rewrite Hy1, Hx1.
      * rewrite Hnodes, Hend. apply list_elem_of_fmap.
        exists (v, en). split; [|by apply nodes_getitem_elem].
        cbn. by rewrite Hy2, Hx2.
  - destruct (data !! "geometry") as [g|] eqn:Hg.
    + eapply get_geometry_explicit in Hgeo; [|done]. subst g. split.
      * by intros ->.
      * intros [= Hnil]. by apply fmap_nil_inv in Hnil.
    + eapply get_geometry_no_geometry in Hgeo as (? & ? & ? & ? & ? & ? & Hgeo); [|done].
      destruct Hgeo as (_ & _ & _ & _ & _ & _ & ->). done.
Qed.

Lemma segment_geometry_witness :
  graph_to_json scenario_graph None = Ok scenario_document ∧
  ∃ u v key data, (u, v, key, data) ∈ G_edges scenario_graph ∧
    seg_id scenario_segment = segment_name u v key ∧
    (geometry scenario_segment = [] ↔ data !! "geometry" = Some (VLineString [])).
Proof.
  assert (graph_to_json scenario_graph None = Ok scenario_document) as Hrun
    by (vm_compute; reflexivity).
  split; [exact Hrun|].
  destruct (segment_geometry scenario_graph None _ scenario_segment Hrun)
    as (u & v & key & data & He & Hid & _ & _ & _ & Hempty).
  - apply list_elem_of_here.
  - by exists u, v, key, data.
Defined.

(** C3 as stated fails: an explicit geometry without points gives a
    segment whose geometry is empty. *)
Lemma empty_geometry_is_emitted :
  ∃ doc s, graph_to_json empty_geometry_graph None = Ok doc ∧
    segments doc = [s] ∧ seg_id s = "seg_1_2_0" ∧ geometry s = [].
Proof. eexists _, _. split_and!; [vm_compute; reflexivity | done..]. Qed.

(** ** Exceptions raised by the edge loop *)

(** C7 fails on the code: the fallback geometry indexes the coordinates of
    the end nodes and raises [KeyError] when one is missing, while the node
    loop run on the same graph falls back to 0.0. *)
Theorem missing_coordinates_raise `{Runtime} :
  graph_to_json missing_coordinates_graph None = Raise (KeyError "y") ∧
  project_node <$> G_nodes missing_coordinates_graph
    = [{| node_id := "node_1"; lat := 0; lon := 0 |};
       {| node_id := "node_2"; lat := 0; lon := 0 |}].
Proof. split; vm_compute; reflexivity. Qed.

(** ** Comparing floats *)

Lemma SFcompare_rank f1 f2 :
  f1 ≠ SpecFloat.S754_nan → f2 ≠ SpecFloat.S754_nan →
  ∃ c, SpecFloat.SFcompare f1 f2 = Some c ∧
    (c = Lt ↔ rank_lt (float_rank f1) (float_rank f2)) ∧
    (c = Gt ↔ rank_lt (float_rank f2) (float_rank f1)).
Proof.
  intros H1 H2.
  destruct f1 as [s1|s1| |s1 m1 e1], f2 as [s2|s2| |s2 m2 e2]; try done;
    try (destruct s1); try (destruct s2); cbn;
    try (eexists; split; [reflexivity|]; unfold rank_lt; cbn; split; split; (done || lia)).
  - change (Pos.compare_cont Eq m1 m2) with (Pos.compare m1 m2).
    destruct (Z.compare_spec e1 e2); [destruct (Pos.compare_spec m1 m2)|..];
      (eexists; split; [reflexivity|]; unfold rank_lt; cbn; split; split; (done || lia)).
  - change (Pos.compare_cont Eq m1 m2) with (Pos.compare m1 m2).
    destruct (Z.compare_spec e1 e2); [destruct (Pos.compare_spec m1 m2)|..];
      (eexists; split; [reflexivity|]; unfold rank_lt; cbn; split; split; (done || lia)).
Qed.

Lemma SFcompare_nan f1 f2 :
  f1 = SpecFloat.S754_nan ∨ f2 = SpecFloat.S754_nan → SpecFloat.SFcompare f1 f2 = None.
Proof. intros [-> | ->]; [done|]. by destruct f1. Qed.

Lemma spec_float_nan_cases f : f = SpecFloat.S754_nan ∨ f ≠ SpecFloat.S754_nan.
Proof. destruct f; auto. Qed.

Lemma rank_lt_irrefl a : ¬ rank_lt a a.
Proof. unfold rank_lt. lia. Qed.

Lemma rank_lt_trans a b c : rank_lt a b → rank_lt b c → rank_lt a c.
Proof. unfold rank_lt. lia. Qed.

Lemma rank_lt_cotrans a b c : rank_lt a b → rank_lt a c ∨ rank_lt c b.
Proof. unfold rank_lt. lia. Qed.

Lemma is_nan_false x :
  PrimFloat.is_nan x = false ↔ FloatOps.Prim2SF x ≠ SpecFloat.S754_nan.
Proof.
  unfold PrimFloat.is_nan. rewrite negb_false_iff, FloatAxioms.eqb_spec.
  unfold SpecFloat.SFeqb. split.
  - intros Heq Hnan. by rewrite SFcompare_nan in Heq by auto.
  - intros Hnan. destruct (SFcompare_rank _ _ Hnan Hnan) as (c & -> & Hlt & Hgt).
    destruct c; [done|..].
    + by destruct (rank_lt_irrefl (rank x)); apply Hlt.
    + by destruct (rank_lt_irrefl (rank x)); apply Hgt.
Qed.

Lemma ltb_rank x y :
  (x <? y)%float = true ↔
  PrimFloat.is_nan x = false ∧ PrimFloat.is_nan y = false ∧ rank_lt (rank x) (rank y).
Proof.
  rewrite FloatAxioms.ltb_spec, !is_nan_false. unfold SpecFloat.SFltb.
  destruct (spec_float_nan_cases (FloatOps.Prim2SF x)) as [Hx|Hx].
  { rewrite SFcompare_nan by auto. naive_solver. }
  destruct (spec_float_nan_cases (FloatOps.Prim2SF y)) as [Hy|Hy].
  { rewrite SFcompare_nan by auto. naive_solver. }
  destruct (SFcompare_rank _ _ Hx Hy) as (c & -> & Hlt & _).
  unfold rank. destruct c; naive_solver.
Qed.

Lemma leb_rank x y :
  (x <=? y)%float = true ↔
  PrimFloat.is_nan x = false ∧ PrimFloat.is_nan y = false ∧ ¬ rank_lt (rank y) (rank x).
Proof.
  rewrite FloatAxioms.leb_spec, !is_nan_false. unfold SpecFloat.SFleb.
  destruct (spec_float_nan_cases (FloatOps.Prim2SF x)) as [Hx|Hx].
  { rewrite SFcompare_nan by auto. naive_solver. }
  destruct (spec_float_nan_cases (FloatOps.Prim2SF y)) as [Hy|Hy].
  { rewrite SFcompare_nan by auto. naive_solver. }
  destruct (SFcompare_rank _ _ Hx Hy) as (c & -> & _ & Hgt).
  unfold rank. destruct c; naive_solver.
Qed.

Lemma ltb_irrefl x : (x <? x)%float = false.
Proof.
  apply not_true_is_false. intros (_ & _ & Hlt)%ltb_rank. by apply rank_lt_irrefl in Hlt.
Qed.

Lemma ltb_trans x y z :
  (x <? y)%float = true → (y <? z)%float = true → (x <? z)%float = true.
Proof.
  intros (? & ? & ?)%ltb_rank (? & ? & ?)%ltb_rank. apply ltb_rank.
  eauto using rank_lt_trans.
Qed.

Lemma ltb_cotrans x y z :
  PrimFloat.is_nan z = false →
  (x <? y)%float = true → (x <? z)%float = true ∨ (z <? y)%float = true.
Proof.
  intros Hz (? & ? & Hlt)%ltb_rank. rewrite !ltb_rank.
  destruct (rank_lt_cotrans _ _ (rank z) Hlt); auto.
Qed.

Lemma ltb_false_leb x y :
  PrimFloat.is_nan x = false → PrimFloat.is_nan y = false →
  (y <? x)%float = false → (x <=? y)%float = true.
Proof.
  intros Hx Hy Hlt. apply leb_rank. split_and!; [done..|].
  intros Hrank. assert ((y <? x)%float = true) by (by apply ltb_rank). congruence.
Qed.

(** ** The starting location *)

Section least_from.
Context {A : Type} (key : A → float).

(** No item has a key strictly below the key of the result, whatever the
    keys are. *)
Lemma least_from_no_smaller (rest : list A) : ∀ (seen : list A) (best : A),
  best ∈ seen → (∀ n, n ∈ seen → (key n <? key best)%float = false) →
  least_from key best rest ∈ seen ++ rest ∧
  ∀ n, n ∈ seen ++ rest → (key n <? key (least_from key best rest))%float = false.
Proof.
  unfold least_from. induction rest as [|x rest IH]; intros seen best Hbest Hseen; cbn.
  - by rewrite app_nil_r.
  - replace (seen ++ x :: rest) with ((seen ++ [x]) ++ rest) by by rewrite <-app_assoc.
    destruct (key x <? key best)%float eqn:Hlt; apply IH.
    + set_solver.
    + intros n [Hn| ->%list_elem_of_singleton]%elem_of_app; [|apply ltb_irrefl].
      apply not_true_is_false. intros Hnx.
      pose proof (Hseen n Hn) as Hnb. by rewrite (ltb_trans _ _ _ Hnx Hlt) in Hnb.
    + set_solver.
    + intros n [Hn| ->%list_elem_of_singleton]%elem_of_app; [by apply Hseen | done].
Qed.

(** When no key is NaN, every item before the result has a key strictly
    above the key of the result. *)
Lemma least_from_first (rest : list A) : ∀ (pre : list A) (best : A) (post : list A),
  (∀ n, n ∈ pre ++ best :: post ++ rest → PrimFloat.is_nan (key n) = false) →
  (∀ n, n ∈ pre → (key best <? key n)%float = true) →
  (∀ n, n ∈ post → (key n <? key best)%float = false) →
  ∃ pre' post', pre ++ best :: post ++ rest = pre' ++ least_from key best rest :: post' ∧
    ∀ n, n ∈ pre' → (key (least_from key best rest) <? key n)%float = true.
Proof.
  unfold least_from.
  induction rest as [|x rest IH]; intros pre best post Hnan Hpre Hpost; cbn.
  - exists pre, post. by rewrite app_nil_r.
  - destruct (key x <? key best)%float eqn:Hlt.
    + destruct (IH (pre ++ best :: post) x []) as (pre' & post' & Heq & Hpre').
      * intros n Hn. apply Hnan. rewrite <-app_assoc in Hn. set_solver.
      * intros n [Hn|[->|Hn]%elem_of_cons]%elem_of_app.
        -- eapply ltb_trans; [exact Hlt | by apply Hpre].
        -- done.
        -- destruct (ltb_cotrans _ _ (key n) (Hnan n ltac:(set_solver)) Hlt) as [?|Hn']; [done|].
           by rewrite Hpost in Hn'.
      * by intros n ?%elem_of_nil.
      * exists pre', post'. split; [|done]. rewrite <-Heq, <-app_assoc. done.
    + destruct (IH pre best (post ++ [x])) as (pre' & post' & Heq & Hpre').
      * intros n Hn. apply Hnan. rewrite <-app_assoc in Hn. done.
      * done.
      * intros n [Hn| ->%list_elem_of_singleton]%elem_of_app; [by apply Hpost | done].
      * exists pre', post'. split; [|done]. rewrite <-Heq, <-app_assoc. done.
Qed.

Lemma least_from_spec (first : A) (rest : list A) :
  let chosen := least_from key first rest in
  chosen ∈ first :: rest ∧
  (∀ n, n ∈ first :: rest → (key n <? key chosen)%float = false) ∧
  ((∀ n, n ∈ first :: rest → PrimFloat.is_nan (key n) = false) →
    (∀ n, n ∈ first :: rest → (key chosen <=? key n)%float = true) ∧
    ∃ pre post, first :: rest = pre ++ chosen :: post ∧
      ∀ n, n ∈ pre → (key chosen <? key n)%float = true).
Proof.
  intros chosen.
  destruct (least_from_no_smaller rest [first] first) as [Hin Hmin].
  { by left. }
  { intros n ->%list_elem_of_singleton. apply ltb_irrefl. }
  split_and!; [done..|]. intros Hnan. split.
  - intros n Hn. apply ltb_false_leb; [by apply Hnan.. | by apply Hmin].
  - destruct (least_from_first rest [] first []) as (pre & post & Heq & Hpre);
      [done | by intros n ?%elem_of_nil.. |]. by exists pre, post.
Qed.
End least_from.

Section py_min.
Context {A : Type} (key : A → result float).

Lemma key_value_ok (a : A) (k : float) : key a = Ok k → key_value key a = k.
Proof. unfold key_value. by intros ->. Qed.

(** When every key can be computed, the loop is the search for the first
    least key. *)
Lemma py_min_loop_ok (rest : list A) : ∀ best,
  (∀ n, n ∈ rest → ∃ k, key n = Ok k) →
  py_min_loop key best (key_value key best) rest
    = Ok (least_from (key_value key) best rest).
Proof.
  unfold least_from. induction rest as [|x rest IH]; intros best Hok; cbn; [done|].
  destruct (Hok x) as [k Hk]; [by left|].
  rewrite Hk, (key_value_ok _ _ Hk). cbn.
  destruct (k <? key_value key best)%float.
  - rewrite <-(key_value_ok _ _ Hk). apply IH. intros n Hn. apply Hok. by right.
  - apply IH. intros n Hn. apply Hok. by right.
Qed.

(** The loop returns when every key can be computed, and otherwise raises
    the exception of the first key that cannot. *)
Lemma py_min_loop_result (rest : list A) : ∀ best best_key,
  match py_min_loop key best best_key rest with
  | Ok _ => ∀ n, n ∈ rest → ∃ k, key n = Ok k
  | Raise err =>
      ∃ pre n post, rest = pre ++ n :: post ∧
        (∀ m, m ∈ pre → ∃ k, key m = Ok k) ∧ key n = Raise err
  end.
Proof.
  induction rest as [|x rest IH]; intros best best_key; cbn.
  - by intros n ?%elem_of_nil.
  - destruct (key x) as [k|err] eqn:Hx; cbn.
    + assert (∀ b bk,
        match py_min_loop key b bk rest with
        | Ok _ => ∀ n, n ∈ x :: rest → ∃ k, key n = Ok k
        | Raise err =>
            ∃ pre n post, x :: rest = pre ++ n :: post ∧
              (∀ m, m ∈ pre → ∃ k, key m = Ok k) ∧ key n = Raise err
        end) as Hstep.
      { intros b bk. specialize (IH b bk). destruct (py_min_loop key b bk rest).
        - intros n [->|?]%elem_of_cons; [by eexists | by apply IH].
        - destruct IH as (pre & n & post & -> & Hpre & Hn).
          exists (x :: pre), n, post. split; [done|]. split; [|done].
          intros m [->|?]%elem_of_cons; [by eexists | by apply Hpre]. }
      destruct (k <? best_key)%float; apply Hstep.
    + exists [], x, rest. split; [done|]. split; [by intros ? ?%elem_of_nil | done].
Qed.

Lemma py_min_result (first : A) (rest : list A) :
  match py_min key first rest with
  | Ok chosen =>
      (∀ n, n ∈ first :: rest → ∃ k, key n = Ok k) ∧
      chosen = least_from (key_value key) first rest
  | Raise err =>
      ∃ pre n post, first :: rest = pre ++ n :: post ∧
        (∀ m, m ∈ pre → ∃ k, key m = Ok k) ∧ key n = Raise err
  end.
Proof.
  unfold py_min. destruct (key first) as [k|err] eqn:Hfirst; cbn.
  - pose proof (py_min_loop_result rest first k) as Hres.
    destruct (py_min_loop key first k rest) as [chosen|err] eqn:Hloop.
    + split.
      * intros n [->|?]%elem_of_cons; [by eexists | by apply Hres].
      * pose proof (py_min_loop_ok rest first Hres) as Hok.
        rewrite (key_value_ok _ _ Hfirst), Hloop in Hok. by injection Hok.
    + destruct Hres as (pre & n & post & -> & Hpre & Hn).
      exists (first :: pre), n, post. split; [done|]. split; [|done].
      intros m [->|?]%elem_of_cons; [by eexists | by apply Hpre].
  - exists [], first, rest. split; [done|]. split; [by intros ? ?%elem_of_nil | done].
Qed.
End py_min.

Lemma starting_location_cons `{Runtime} (first : Node) (rest : list Node) :
  starting_location (first :: rest)
  = (chosen ← py_min (centroid_distance (avg_lat (first :: rest)) (avg_lon (first :: rest)))
       first rest;
     Ok (Some chosen)).
Proof. unfold starting_location. by destruct (py_min _ _ _) as [[]|]. Qed.

(** C4, as the code has it: the selection returns when the squared
    distance to the centroid, the mean latitude and mean longitude, can be
    computed for every node, and raises the exception of the first node
    for which it cannot.  When it returns, the chosen node is a node of the
    list such that no node is strictly nearer to the centroid; when no
    distance is NaN it is at most as far as every node and strictly nearer
    than every node before it in iteration order.  Selection is a function
    of the list; the empty list gives no starting location and no
    exception. *)
Theorem starting_location_nearest_centroid `{Runtime} (ns : list Node) :
  let dist := centroid_distance (avg_lat ns) (avg_lon ns) in
  (ns = [] → starting_location ns = Ok None) ∧
  (ns ≠ [] →
    match starting_location ns with
    | Ok None => False
    | Ok (Some chosen) =>
        chosen ∈ ns ∧
        ∃ d_chosen, dist chosen = Ok d_chosen ∧
          (∀ n, n ∈ ns → ∃ d, dist n = Ok d ∧ (d <? d_chosen)%float = false) ∧
          ((∀ n d, n ∈ ns → dist n = Ok d → PrimFloat.is_nan d = false) →
            (∀ n d, n ∈ ns → dist n = Ok d → (d_chosen <=? d)%float = true) ∧
            ∃ pre post, ns = pre ++ chosen :: post ∧
              ∀ n d, n ∈ pre → dist n = Ok d → (d_chosen <? d)%float = true)
    | Raise err =>
        ∃ pre n post, ns = pre ++ n :: post ∧
          (∀ m, m ∈ pre → ∃ d, dist m = Ok d) ∧ dist n = Raise err
    end) ∧
  (∀ ns', ns' = ns → starting_location ns' = starting_location ns) ∧
  (∀ Gs Gf doc, graph_to_json Gs Gf = Ok doc →
    starting_location (nodes doc) = Ok (startingLocation doc)) ∧
  ∃ doc, graph_to_json empty_graph None = Ok doc ∧
    nodes doc = [] ∧ segments doc = [] ∧ startingLocation doc = None.
Proof.
  intros dist. split_and!.
  - by intros ->.
  - destruct ns as [|first rest]; [done|]. intros _.
    rewrite starting_location_cons. fold dist.
    pose proof (py_min_result dist first rest) as Hres.
    destruct (py_min dist first rest) as [chosen|err]; cbn; [|done].
    destruct Hres as [Hall ->].
    destruct (least_from_spec (key_value dist) first rest) as (Hin & Hmin & Hfirst).
    split; [done|]. destruct (Hall _ Hin) as [d_chosen Hchosen].
    exists d_chosen. split; [done|]. split.
    + intros n Hn. destruct (Hall n Hn) as [d Hd]. exists d. split; [done|].
      rewrite <-(key_value_ok _ _ _ Hd), <-(key_value_ok _ _ _ Hchosen). by apply Hmin.
    + intros Hnan. destruct Hfirst as [Hle (pre & post & Heq & Hpre)].
      { intros n Hn. destruct (Hall n Hn) as [d Hd].
        rewrite (key_value_ok _ _ _ Hd). by eapply Hnan. }
      split.
      * intros n d Hn Hd.
        rewrite <-(key_value_ok _ _ _ Hd), <-(key_value_ok _ _ _ Hchosen). by apply Hle.
      * exists pre, post. split; [done|]. intros n d Hn Hd.
        rewrite <-(key_value_ok _ _ _ Hd), <-(key_value_ok _ _ _ Hchosen). by apply Hpre.
  - by intros ? ->.
  - intros Gs Gf doc Hrun. by apply graph_to_json_inv in Hrun as (_ & _ & ? & _).
  - by eexists.
Qed.

Lemma starting_location_nearest_centroid_witness :
  starting_location scenario_nodes
    = Ok (Some {| node_id := "node_1"; lat := 0; lon := 0 |}) ∧
  ∃ d_chosen pre post,
    centroid_distance (avg_lat scenario_nodes) (avg_lon scenario_nodes)
      {| node_id := "node_1"; lat := 0; lon := 0 |} = Ok d_chosen ∧
    scenario_nodes = pre ++ {| node_id := "node_1"; lat := 0; lon := 0 |} :: post ∧
    ∀ n d, n ∈ pre →
      centroid_distance (avg_lat scenario_nodes) (avg_lon scenario_nodes) n = Ok d →
      (d_chosen <? d)%float = true.
Proof.
  assert (starting_location scenario_nodes
    = Ok (Some {| node_id := "node_1"; lat := 0; lon := 0 |})) as Heq
    by (vm_compute; reflexivity).
  split; [exact Heq|].
  assert (scenario_nodes ≠ []) as Hne by done.
  pose proof (proj1 (proj2 (starting_location_nearest_centroid scenario_nodes)) Hne)
    as Hchosen.
  rewrite Heq in Hchosen. destruct Hchosen as (_ & d_chosen & Hd & _ & Hfirst).
  destruct Hfirst as [_ (pre & post & Hsplit & Hpre)].
  { intros n d Hn Hdist.
    repeat (apply elem_of_cons in Hn as [->|Hn];
      [vm_compute in Hdist; injection Hdist as <-; vm_compute; reflexivity|]).
    by apply elem_of_nil in Hn. }
  by exists d_chosen, pre, post.
Defined.

(** Two nodes at (1e200, 0) and (0, 0): the centroid is at (5e199, 0), and
    the square of 5e199 is no float. *)
Lemma distant_nodes_have_no_starting_location :
  starting_location (project_node <$> G_nodes distant_nodes_graph)
    = Raise (OverflowError "(34, 'Numerical result out of range')") ∧
  graph_to_json distant_nodes_graph None
    = Raise (OverflowError "(34, 'Numerical result out of range')").
Proof. split; vm_compute; reflexivity. Qed.

(** ** The command line *)

Section main_facts.
Context `{Runtime}.
Context (py_float : string → option float).
Context (load_osm_graph :
  file_system → string → option (list float) → result (MultiDiGraph * MultiDiGraph)).
Context (open_for_writing : file_system → string → bool).
Context (json_dump : document → string * option exn).

#[local] Notation run := (main py_float load_osm_graph open_for_writing json_dump).
#[local] Notation converted := (converts_to py_float load_osm_graph).
#[local] Notation parse := (parse_bbox py_float).
#[local] Notation parsed := (parsed_bbox py_float).

Lemma parse_bbox_three_values : ∃ e, parse "1,2,3" = Raise e.
Proof.
  unfold parse_bbox. cbn.
  destruct (py_float "1"); [|by eexists]. destruct (py_float "2"); [|by eexists].
  destruct (py_float "3"); by eexists.
Qed.

Lemma parse_bbox_ok s b :
  parse s = Ok b ↔
  length b = 4%nat ∧ Forall2 (λ piece x, py_float piece = Some x) (split_on "," s) b.
Proof.
  unfold parse_bbox.
  assert (∀ pieces xs, map_float py_float pieces = Ok xs ↔
    Forall2 (λ piece x, py_float piece = Some x) pieces xs) as Hmap.
  { induction pieces as [|piece pieces IH]; intros xs; cbn.
    - split; [intros [= <-]; constructor | by intros ->%Forall2_nil_inv_l].
    - destruct (py_float piece) as [x|] eqn:Hx.
      + destruct (map_float py_float pieces) as [ys|] eqn:Hys; cbn.
        * split; [intros [= <-]; constructor; [done | by apply IH]|].
          intros (x' & xs' & Hx' & Hxs' & ->)%Forall2_cons_inv_l.
          apply IH in Hxs'. congruence.
        * split; [done|]. intros (x' & xs' & _ & Hxs' & ->)%Forall2_cons_inv_l.
          by apply IH in Hxs'.
      + split; [done|]. intros (x' & xs' & Hx' & _)%Forall2_cons_inv_l. congruence. }
  destruct (map_float py_float (split_on "," s)) as [xs|] eqn:Hxs; cbn.
  - case_bool_decide as Hlen.
    + split; [done|]. intros [Hb Hall]. apply Hmap in Hall. congruence.
    + split; [intros [= <-]; split; [lia | by apply Hmap]|].
      intros [_ Hall]. apply Hmap in Hall. congruence.
  - split; [done|]. intros [_ Hall]. apply Hmap in Hall. congruence.
Qed.

Lemma main_converts_to a fs doc :
  converted a fs doc →
  run a fs =
    if open_for_writing fs (output_json a) then
      match json_dump doc with
      | (text, Some _) => (1, <[output_json a := text]> fs)
      | (text, None) => (0, <[output_json a := text]> fs)
      end
    else (1, fs).
Proof.
  intros (b & Gs & Gf & Hbbox & Hin & Hload & Hdoc). unfold main.
  rewrite Hbbox, bool_decide_eq_false_2, Hload, Hdoc by done.
  destruct (open_for_writing _ _); [|done]. by destruct (json_dump doc) as [text [e|]].
Qed.

Lemma main_cases a fs :
  run a fs = (1, fs) ∨ ∃ doc, converted a fs doc.
Proof.
  unfold main, converts_to.
  destruct (parsed a) as [b|] eqn:Hbbox; [|by left].
  case_bool_decide as Hin; [by left|].
  destruct (load_osm_graph _ _ _) as [[Gs Gf]|] eqn:Hload; [|by left].
  destruct (graph_to_json Gs (Some Gf)) as [doc|] eqn:Hdoc; [|by left].
  right. by exists doc, b, Gs, Gf.
Qed.

(** C8, as the code has it: a bbox is well formed when it splits at its
    commas into exactly four pieces that [float] accepts.  A non-empty
    malformed bbox, a missing input file and an exception while loading,
    converting, opening the output or serializing all end with status 1.  The file system is left as it was
    in all of them but the last: when [json.dump] raises, the output file
    has been opened for writing and holds what was written until then.
    Only a run that serializes to the end has status 0. *)
Theorem cli_failure_semantics (a : args) (fs : file_system) :
  (∀ s b, parse s = Ok b ↔
    length b = 4%nat ∧
    Forall2 (λ piece x, py_float piece = Some x) (split_on "," s) b) ∧
  (∀ s e, bbox a = Some s → s ≠ "" → parse s = Raise e → run a fs = (1, fs)) ∧
  (bbox a = Some "1,2,3" → run a fs = (1, fs)) ∧
  (fs !! osm_file a = None → run a fs = (1, fs)) ∧
  (∀ b e, parsed a = Ok b → load_osm_graph fs (osm_file a) b = Raise e →
    run a fs = (1, fs)) ∧
  (∀ b Gs Gf e, parsed a = Ok b →
    load_osm_graph fs (osm_file a) b = Ok (Gs, Gf) →
    graph_to_json Gs (Some Gf) = Raise e → run a fs = (1, fs)) ∧
  (∀ doc, converted a fs doc → open_for_writing fs (output_json a) = false →
    run a fs = (1, fs)) ∧
  (∀ doc text e, converted a fs doc → open_for_writing fs (output_json a) = true →
    json_dump doc = (text, Some e) → run a fs = (1, <[output_json a := text]> fs)) ∧
  (∀ doc text, converted a fs doc → open_for_writing fs (output_json a) = true →
    json_dump doc = (text, None) → run a fs = (0, <[output_json a := text]> fs)) ∧
  (∀ status fs', run a fs = (status, fs') →
    (status = 0 ∨ status = 1) ∧
    (fs' = fs ∨ ∃ doc, converted a fs doc ∧
      open_for_writing fs (output_json a) = true ∧
      fs' = <[output_json a := (json_dump doc).1]> fs) ∧
    (status = 0 → ∃ doc text, converted a fs doc ∧
      open_for_writing fs (output_json a) = true ∧
      json_dump doc = (text, None) ∧ fs' = <[output_json a := text]> fs)).
Proof.
  assert (∀ s e, bbox a = Some s → s ≠ "" → parse s = Raise e →
    run a fs = (1, fs)) as Hbad.
  { intros s e Hs Hne Hraise. unfold main, parsed_bbox.
    by rewrite Hs, bool_decide_eq_false_2, Hraise by done. }
  split_and!.
  - apply parse_bbox_ok.
  - exact Hbad.
  - intros Hs. destruct parse_bbox_three_values as [e He]. by eapply Hbad.
  - intros Hnone. unfold main. destruct (parsed a); [|done].
    by rewrite bool_decide_eq_true_2.
  - intros b e Hb Hload. unfold main. rewrite Hb, Hload. by case_bool_decide.
  - intros b Gs Gf e Hb Hload Hdoc. unfold main. rewrite Hb, Hload, Hdoc.
    by case_bool_decide.
  - intros doc Hdoc Hopen. by rewrite (main_converts_to _ _ _ Hdoc), Hopen.
  - intros doc text e Hdoc Hopen Hdump.
    by rewrite (main_converts_to _ _ _ Hdoc), Hopen, Hdump.
  - intros doc text Hdoc Hopen Hdump.
    by rewrite (main_converts_to _ _ _ Hdoc), Hopen, Hdump.
  - intros status fs' Hmain. destruct (main_cases a fs) as [Hfail|[doc Hdoc]].
    { rewrite Hfail in Hmain. injection Hmain as <- <-. split_and!; [by right | by left | done]. }
    rewrite (main_converts_to _ _ _ Hdoc) in Hmain.
    destruct (open_for_writing fs (output_json a)) eqn:Hopen.
    + destruct (json_dump doc) as [text [e|]] eqn:Hdump; injection Hmain as <- <-.
      * split_and!; [by right | | done]. right. exists doc. by rewrite Hdump.
      * split_and!; [by left | |]. { right. exists doc. by rewrite Hdump. }
        intros _. by exists doc, text.
    + injection Hmain as <- <-. split_and!; [by right | by left | done].
Qed.
End main_facts.

(** C8 as stated fails in two places.  When serialization raises, the run
    ends with status 1 and leaves an output file that did not exist
    before, with the text written so far.  And the empty bbox, which is
    not four numbers, is taken for no bbox: the run goes on and succeeds. *)
Lemma serialization_failure_leaves_output :
  let load := λ (_ : file_system) (_ : string) (_ : option (list float)),
    Ok (scenario_graph, scenario_graph) in
  sample_file_system !! "out.json" = None ∧
  main (λ _, None) load (λ _ _, true) failing_json_dump sample_args sample_file_system
    = (1, <["out.json" := "{"]> sample_file_system) ∧
  (<["out.json" := "{"]> sample_file_system : file_system) !! "out.json" = Some "{" ∧
  main (λ _, None) load (λ _ _, true) complete_json_dump
    {| osm_file := "map.osm"; output_json := "out.json"; bbox := Some "" |}
    sample_file_system
    = (0, <["out.json" := "{...}"]> sample_file_system).
Proof. split_and!; vm_compute; reflexivity. Qed.

(** * Further properties of [graph_to_json] *)

Lemma kept_edges_sublist (es : list edge) : ∀ seen, kept_edges seen es `sublist_of` es.
Proof.
  induction es as [|e0 es IH]; intros seen; cbn [kept_edges]; [done|].
  case_bool_decide; [by apply sublist_cons | by apply sublist_skip].
Qed.

Lemma kept_edges_unique (es : list edge) : ∀ seen,
  NoDup (edge_key <$> es) → (∀ e, e ∈ es → edge_key e ∉ seen) →
  kept_edges seen es = es.
Proof.
  induction es as [|e0 es IH]; intros seen Hnodup Hfresh; cbn [kept_edges]; [done|].
  rewrite fmap_cons in Hnodup. apply NoDup_cons in Hnodup as [Hnot Hnodup].
  rewrite bool_decide_eq_false_2 by (apply Hfresh; by left).
  f_equal. apply IH; [done|]. intros e He.
  assert (edge_key e ≠ edge_key e0).
  { intros Heq. apply Hnot. rewrite <-Heq. by apply list_elem_of_fmap_2. }
  assert (edge_key e ∉ seen) by (apply Hfresh; by right). set_solver.
Qed.

Lemma emitted_segment_key `{Runtime} Gs Gf doc i s :
  graph_to_json Gs Gf = Ok doc → segments doc !! i = Some s →
  ∃ e, kept_edges ∅ (G_edges Gs) !! i = Some e ∧ e ∈ G_edges Gs ∧
    build_segment Gs e = Ok s ∧ canonical_key s (edge_key e).
Proof.
  intros Hrun Hs. destruct (emitted_segment_edge _ _ _ _ _ Hrun Hs) as (e & He & Hb).
  exists e. split_and!; [done | | done | by apply (build_segment_canonical_key _ _ _ _ Hb)].
  apply list_elem_of_lookup_2 in He. by apply kept_edges_fresh in He as [_ ?].
Qed.

Lemma segment_keys `{Runtime} Gs Gf doc c :
  graph_to_json Gs Gf = Ok doc →
  (∃ s, s ∈ segments doc ∧ canonical_key s c) ↔ ∃ e, e ∈ G_edges Gs ∧ edge_key e = c.
Proof.
  intros Hrun. split.
  - intros (s & [i Hi]%list_elem_of_lookup & Hc).
    destruct (emitted_segment_key _ _ _ _ _ Hrun Hi) as (e & _ & He & Hb & _).
    exists e. split; [done|]. symmetry. by apply (build_segment_canonical_key _ _ _ _ Hb).
  - intros (e & He & <-).
    destruct (edge_emitted_once _ _ _ _ Hrun He) as (i & s & Hi & Hc & _).
    exists s. split; [by eapply list_elem_of_lookup_2 | done].
Qed.

Lemma project_node_ids (l : list (Z * node_attrs)) :
  node_id <$> (project_node <$> l) = node_name <$> (fst <$> l).
Proof. rewrite <-!list_fmap_compose. apply list_fmap_ext. by intros ? [n data]. Qed.

Lemma build_segment_nodes (G G' : MultiDiGraph) e :
  G_nodes G = G_nodes G' → build_segment G e = build_segment G' e.
Proof.
  intros Hnodes. destruct e as [[[u v] key] data].
  unfold build_segment, get_geometry. by rewrite Hnodes.
Qed.

(** X1: the identifiers of the emitted segments are pairwise distinct. *)
Theorem segment_ids_unique `{Runtime} Gs Gf doc :
  graph_to_json Gs Gf = Ok doc → NoDup (seg_id <$> segments doc).
Proof.
  intros Hrun. apply NoDup_alt. intros i j id Hi Hj.
  rewrite list_lookup_fmap in Hi, Hj.
  destruct (segments doc !! i) as [s|] eqn:Hs; [|done].
  destruct (segments doc !! j) as [s'|] eqn:Hs'; [|done]. simplify_eq/=.
  destruct (emitted_segment_key _ _ _ _ _ Hrun Hs) as (e & _ & _ & _ & Hc).
  apply (segments_key_inj Gs Gf doc i j s s' (edge_key e) Hrun Hs Hs' Hc).
  destruct Hc as (u & v & key & Hid & Hkey). exists u, v, key. by rewrite <-Hi.
Qed.

Lemma segment_ids_unique_witness :
  graph_to_json scenario_graph None = Ok scenario_document ∧
  NoDup (seg_id <$> segments scenario_document).
Proof.
  assert (graph_to_json scenario_graph None = Ok scenario_document) as Hrun
    by (vm_compute; reflexivity).
  split; [exact Hrun|]. exact (segment_ids_unique scenario_graph None _ Hrun).
Defined.

(** X2: when the node identifiers of a graph are pairwise distinct, so are
    the identifiers of the exported nodes, in [nodes] and in
    [fullGraphNodes]. *)
Theorem exported_node_ids_unique `{Runtime} Gs Gf doc :
  graph_to_json Gs Gf = Ok doc →
  (NoDup (fst <$> G_nodes Gs) → NoDup (node_id <$> nodes doc)) ∧
  (NoDup (fst <$> G_nodes (default Gs Gf)) → NoDup (node_id <$> fullGraphNodes doc)).
Proof.
  intros (-> & _ & _ & -> & _)%graph_to_json_inv.
  rewrite !project_node_ids.
  split; intros Hnodup; (apply NoDup_fmap_2_strong; [|done]);
    intros n n' _ _; apply node_name_inj.
Qed.

Lemma exported_node_ids_unique_witness :
  graph_to_json scenario_graph None = Ok scenario_document ∧
  NoDup (node_id <$> nodes scenario_document).
Proof.
  assert (graph_to_json scenario_graph None = Ok scenario_document) as Hrun
    by (vm_compute; reflexivity).
  split; [exact Hrun|].
  apply (proj1 (exported_node_ids_unique scenario_graph None _ Hrun)).
  apply (bool_decide_unpack (NoDup _)). vm_compute. exact I.
Defined.

(** X3: when both ends of every edge are nodes of the simplified graph,
    the start and the end of every segment are identifiers of exported
    nodes. *)
Theorem segment_ends_are_exported_nodes `{Runtime} Gs Gf doc :
  graph_to_json Gs Gf = Ok doc → edges_end_in_nodes Gs →
  ∀ s, s ∈ segments doc →
    startNodeId s ∈ node_id <$> nodes doc ∧ endNodeId s ∈ node_id <$> nodes doc.
Proof.
  intros Hrun Hends s Hs.
  destruct (emitted_segment_source _ _ _ _ Hrun Hs) as ([[[u v] key] data] & He & Hb).
  apply build_segment_id in Hb as (_ & -> & ->).
  destruct (graph_to_json_inv _ _ _ Hrun) as (-> & _).
  rewrite project_node_ids. destruct (Hends _ _ _ _ He).
  split; by apply list_elem_of_fmap_2.
Qed.

Lemma segment_ends_are_exported_nodes_witness :
  graph_to_json scenario_graph None = Ok scenario_document ∧
  edges_end_in_nodes scenario_graph ∧
  startNodeId scenario_segment ∈ node_id <$> nodes scenario_document ∧
  endNodeId scenario_segment ∈ node_id <$> nodes scenario_document.
Proof.
  assert (graph_to_json scenario_graph None = Ok scenario_document) as Hrun
    by (vm_compute; reflexivity).
  assert (edges_end_in_nodes scenario_graph) as Hends.
  { intros u v key data He.
    repeat (apply elem_of_cons in He as [[= -> -> -> ->]|He];
      [split; apply (bool_decide_unpack (_ ∈ _)); vm_compute; exact I|]).
    by apply elem_of_nil in He. }
  split; [exact Hrun|]. split; [exact Hends|].
  apply (segment_ends_are_exported_nodes scenario_graph None _ Hrun Hends).
  apply list_elem_of_here.
Defined.

(** X4: the name of a segment is the [name] attribute of its edge, but
    for a list, which gives its first element, or [None] when it is empty;
    an absent attribute gives [None]. *)
Theorem street_name_normalized `{Runtime} Gs Gf doc s :
  graph_to_json Gs Gf = Ok doc → s ∈ segments doc →
  ∃ u v key data, (u, v, key, data) ∈ G_edges Gs ∧
    seg_id s = segment_name u v key ∧
    match data !! "name" with
    | None | Some (VList []) => name s = VNone
    | Some (VList (first :: _)) => name s = first
    | Some x => name s = x
    end.
Proof.
  intros Hrun Hs.
  destruct (emitted_segment_source _ _ _ _ Hrun Hs) as ([[[u v] key] data] & He & Hb).
  apply build_segment_taken_from in Hb as (Hid & _ & _ & _ & Hname & _).
  exists u, v, key, data. split_and!; [done..|]. rewrite Hname. unfold get_name.
  by destruct (data !! "name") as [[| | | | |[]|]|].
Qed.

Lemma street_name_normalized_witness :
  ∃ doc s, graph_to_json shadowed_edge_graph None = Ok doc ∧ s ∈ segments doc ∧
    ∃ u v key data, (u, v, key, data) ∈ G_edges shadowed_edge_graph ∧
      seg_id s = segment_name u v key ∧
      match data !! "name" with
      | None | Some (VList []) => name s = VNone
      | Some (VList (first :: _)) => name s = first
      | Some x => name s = x
      end.
Proof.
  eexists _, _.
  assert (∀ (P Q R : Prop), P → (P → Q) → (P → Q → R) → P ∧ Q ∧ R) as Hchain by tauto.
  apply Hchain.
  - vm_compute. reflexivity.
  - intros _. apply list_elem_of_here.
  - intros Hrun Hs. exact (street_name_normalized shadowed_edge_graph None _ _ Hrun Hs).
Defined.

Lemma built_from_ids G es segs :
  built_from G es segs → seg_id <$> segs = edge_segment_name <$> es.
Proof.
  induction 1 as [|[[[u v] key] data] s es segs Hb _ IH]; [done|].
  cbn. apply build_segment_id in Hb as (-> & _). by rewrite IH.
Qed.

Lemma distinct_keys_perm (es es' : list edge) :
  es ≡ₚ es' → distinct_keys es = distinct_keys es'.
Proof.
  intros Hperm. unfold distinct_keys. f_equal.
  apply list_to_set_perm_L. by rewrite Hperm.
Qed.

Lemma for_each_segment_step_raises G (es : list edge) : ∀ seen segs err,
  for_each (segment_step G) (seen, segs) es = Raise err ↔
  ∃ pre e post, kept_edges seen es = pre ++ e :: post ∧
    Forall (buildable G) pre ∧ build_segment G e = Raise err.
Proof.
  induction es as [|e0 es IH]; intros seen segs err; cbn [for_each kept_edges].
  - split; [done|]. by intros ([|??] & ? & ? & ? & _).
  - case_bool_decide as Hin.
    + rewrite segment_step_seen by done. apply IH.
    + rewrite segment_step_fresh by done.
      destruct (build_segment G e0) as [s0|err0] eqn:Hb0; cbn.
      * rewrite IH. split.
        -- intros (pre & e & post & Hkept & Hpre & Hb).
           exists (e0 :: pre), e, post. rewrite Hkept. split_and!; [done| |done].
           constructor; [by exists s0 | done].
        -- intros ([|p pre] & e & post & Hkept & Hpre & Hb).
           ++ injection Hkept as <- _. congruence.
           ++ injection Hkept as <- Hkept. exists pre, e, post.
              split_and!; [done| |done]. by inversion Hpre.
      * split.
        -- intros [= <-]. by exists [], e0, (kept_edges (seen ∪ {[edge_key e0]}) es).
        -- intros ([|p pre] & e & post & Hkept & Hpre & Hb).
           ++ injection Hkept as <- _. congruence.
           ++ injection Hkept as <- _. inversion Hpre as [|? ? [s Hs] _]. congruence.
Qed.

Lemma buildable_well_formed G e : buildable G e ↔ edge_well_formed G e.
Proof.
  destruct e as [[[u v] key] data]. unfold buildable, build_segment, edge_well_formed.
  destruct (data !! "geometry") as [g|] eqn:Hg.
  - split.
    + intros [s Hs]. destruct (get_geometry G u v data) as [points|] eqn:Hgeo; [|done].
      exists points. by eapply get_geometry_explicit.
    + intros [points ->].
      rewrite (proj2 (get_geometry_explicit G u v data _ points Hg) eq_refl). by eexists.
  - split.
    + intros [s Hs]. destruct (get_geometry G u v data) as [points|] eqn:Hgeo; [|done].
      apply get_geometry_no_geometry in Hgeo as (sn & en & y1 & x1 & y2 & x2 & ?); [|done].
      split; [exists sn, y1, x1 | exists en, y2, x2]; naive_solver.
    + intros [(sn & y1 & x1 & ? & ? & ?) (en & y2 & x2 & ? & ? & ?)].
      rewrite (proj2 (get_geometry_no_geometry G u v data [(y1, x1); (y2, x2)] Hg));
        [by eexists|]. by exists sn, en, y1, x1, y2, x2.
Qed.

(** X5: two runs that return on graphs whose edge lists are permutations
    of each other emit the same number of segments and the same canonical
    keys. *)
Theorem segments_order_independent `{Runtime} Gs Gs' Gf Gf' doc doc' :
  graph_to_json Gs Gf = Ok doc → graph_to_json Gs' Gf' = Ok doc' →
  G_edges Gs ≡ₚ G_edges Gs' →
  length (segments doc) = length (segments doc') ∧
  ∀ c, (∃ s, s ∈ segments doc ∧ canonical_key s c) ↔
       (∃ s', s' ∈ segments doc' ∧ canonical_key s' c).
Proof.
  intros Hrun Hrun' Hperm. split.
  - destruct (graph_to_json_inv _ _ _ Hrun) as (_ & Hbuilt & _).
    destruct (graph_to_json_inv _ _ _ Hrun') as (_ & Hbuilt' & _).
    rewrite <-(Forall2_length _ _ _ Hbuilt), <-(Forall2_length _ _ _ Hbuilt').
    rewrite !kept_edges_length. by apply distinct_keys_perm.
  - intros c. rewrite (segment_keys _ _ _ c Hrun), (segment_keys _ _ _ c Hrun').
    by setoid_rewrite Hperm.
Qed.

Lemma segments_order_independent_witness :
  ∃ doc', graph_to_json scenario_graph None = Ok scenario_document ∧
    graph_to_json scenario_graph_reversed None = Ok doc' ∧
    G_edges scenario_graph ≡ₚ G_edges scenario_graph_reversed ∧
    length (segments scenario_document) = length (segments doc').
Proof.
  assert (graph_to_json scenario_graph None = Ok scenario_document) as Hrun
    by (vm_compute; reflexivity).
  assert (∃ doc', graph_to_json scenario_graph_reversed None = Ok doc') as [doc' Hrun']
    by (eexists; vm_compute; reflexivity).
  assert (G_edges scenario_graph ≡ₚ G_edges scenario_graph_reversed) as Hperm
    by apply perm_swap.
  exists doc'. split_and!; [exact Hrun | exact Hrun' | exact Hperm |].
  apply (segments_order_independent _ _ _ _ _ _ Hrun Hrun' Hperm).
Defined.

(** X6: the segments come in the iteration order of their edges: their
    identifiers are a sublist of the identifiers of the edges, so there
    are at most as many segments as edges. *)
Theorem segments_follow_iteration_order `{Runtime} Gs Gf doc :
  graph_to_json Gs Gf = Ok doc →
  (seg_id <$> segments doc) `sublist_of` (edge_segment_name <$> G_edges Gs) ∧
  (length (segments doc) ≤ length (G_edges Gs))%nat.
Proof.
  intros (_ & Hbuilt & _)%graph_to_json_inv.
  pose proof (kept_edges_sublist (G_edges Gs) ∅) as Hsub.
  split.
  - rewrite (built_from_ids _ _ _ Hbuilt). by apply fmap_sublist.
  - rewrite <-(Forall2_length _ _ _ Hbuilt). by apply sublist_length.
Qed.

Lemma segments_follow_iteration_order_witness :
  graph_to_json scenario_graph None = Ok scenario_document ∧
  (seg_id <$> segments scenario_document)
    `sublist_of` (edge_segment_name <$> G_edges scenario_graph).
Proof.
  assert (graph_to_json scenario_graph None = Ok scenario_document) as Hrun
    by (vm_compute; reflexivity).
  split; [exact Hrun|].
  apply (segments_follow_iteration_order scenario_graph None _ Hrun).
Defined.

Lemma built_from_buildable G es segs : built_from G es segs → Forall (buildable G) es.
Proof. intros Hbuilt. induction Hbuilt; constructor; [by eexists | done]. Qed.

(** The export raises in the edge loop, or in the computation of the
    starting location once the edge loop is through. *)
Lemma graph_to_json_raises `{Runtime} Gs Gf err :
  graph_to_json Gs Gf = Raise err ↔
  for_each (segment_step Gs) (∅, []) (G_edges Gs) = Raise err ∨
  (Forall (buildable Gs) (kept_edges ∅ (G_edges Gs)) ∧
   starting_location (project_node <$> G_nodes Gs) = Raise err).
Proof.
  unfold graph_to_json. destruct (for_each _ _ _) as [[seen segs]|err'] eqn:Hloop; cbn.
  - apply for_each_segment_step in Hloop as (built & Hbuilt%built_from_buildable & _).
    destruct (starting_location _) as [loc|err']; cbn.
    + split; [done|]. by intros [?|[_ ?]].
    + split; [intros [= ->]; by right|]. by intros [?|[_ [= ->]]].
  - split; [intros [= ->]; by left|]. intros [[= ->]|[Hall _]]; [done|]. exfalso.
    apply for_each_segment_step_raises in Hloop as (pre & e & post & Hkept & _ & He).
    rewrite Hkept in Hall. apply Forall_app in Hall as [_ [[s Hs] _]%Forall_cons].
    congruence.
Qed.

(** X7: the export raises [err] exactly when, among the edges that the
    test on [seen_edges] lets through, the first whose segment cannot be
    built raises [err], or when every such edge can be built and the
    computation of the starting location raises [err]; an edge dropped as a
    repetition is not examined. *)
Theorem export_raises_at_first_unbuildable `{Runtime} Gs Gf err :
  graph_to_json Gs Gf = Raise err ↔
  (∃ pre e post, kept_edges ∅ (G_edges Gs) = pre ++ e :: post ∧
    Forall (buildable Gs) pre ∧ build_segment Gs e = Raise err) ∨
  (Forall (buildable Gs) (kept_edges ∅ (G_edges Gs)) ∧
   starting_location (project_node <$> G_nodes Gs) = Raise err).
Proof.
  rewrite <-(for_each_segment_step_raises Gs (G_edges Gs) ∅ [] err).
  apply graph_to_json_raises.
Qed.

Lemma flip_coords_raise coords err :
  flip_coords coords = Raise err →
  (∃ msg, err = ValueError msg) ∧ ∃ c, c ∈ coords ∧ length c ≠ 2%nat.
Proof.
  induction coords as [|c coords IH]; cbn; [done|].
  destruct c as [|lon [|lat [|z c]]]; cbn.
  - intros [= <-]. split; [by eexists|]. exists []. split; [by left | done].
  - intros [= <-]. split; [by eexists|]. exists [lon]. split; [by left | done].
  - destruct (flip_coords coords) as [ps|err'] eqn:Hps; cbn; [done|].
    intros [= <-]. destruct (IH eq_refl) as [Hmsg (c & Hc & Hlen)].
    split; [done|]. exists c. split; [by right | done].
  - intros [= <-]. split; [by eexists|]. exists (lon :: lat :: z :: c).
    split; [by left | done].
Qed.

Lemma nodes_getitem_raise (l : list (Z * node_attrs)) n err :
  nodes_getitem l n = Raise err → err = KeyError (pretty n) ∧ n ∉ fst <$> l.
Proof.
  induction l as [|[m d] l IH]; cbn.
  - intros [= <-]. split; [done | by intros ?%elem_of_nil].
  - case_bool_decide as Hm; [done|]. intros [-> Hn]%IH. split; [done|].
    by intros [?|?]%elem_of_cons.
Qed.

Lemma build_segment_raise G u v key data err :
  build_segment G (u, v, key, data) = Raise err ↔ get_geometry G u v data = Raise err.
Proof.
  unfold build_segment. destruct (get_geometry G u v data); cbn; [done|].
  split; by intros [= ->].
Qed.

(** X8: the segment of an edge can be built exactly when its geometry is
    a line of two-dimensional points or, without geometry, both end nodes
    carry both coordinates; otherwise the exception is [AttributeError]
    for a geometry that is no line, [ValueError] for a point that is not a
    pair, and [KeyError] for a missing node or coordinate.  No other
    attribute can make it fail. *)
Theorem build_segment_exceptions G u v key data :
  (buildable G (u, v, key, data) ↔ edge_well_formed G (u, v, key, data)) ∧
  ∀ err, build_segment G (u, v, key, data) = Raise err →
    match data !! "geometry" with
    | Some (VLineString coords) =>
        (∃ msg, err = ValueError msg) ∧ ∃ c, c ∈ coords ∧ length c ≠ 2%nat
    | Some _ => err = AttributeError "coords"
    | None => ∃ k, err = KeyError k
    end.
Proof.
  split; [apply buildable_well_formed|]. intros err Hraise.
  apply build_segment_raise in Hraise. revert Hraise. unfold get_geometry.
  destruct (data !! "geometry") as [g|].
  - destruct g as [| | | | | |coords]; cbn; try by intros [= <-].
    apply flip_coords_raise.
  - destruct (nodes_getitem (G_nodes G) u) as [sn|] eqn:Hsn; cbn.
    2:{ intros [= <-]. apply nodes_getitem_raise in Hsn as [-> _]. by eexists. }
    destruct (nodes_getitem (G_nodes G) v) as [en|] eqn:Hen; cbn.
    2:{ intros [= <-]. apply nodes_getitem_raise in Hen as [-> _]. by eexists. }
    unfold getitem.
    destruct (sn !! "y"); cbn; [|intros [= <-]; by eexists].
    destruct (sn !! "x"); cbn; [|intros [= <-]; by eexists].
    destruct (en !! "y"); cbn; [|intros [= <-]; by eexists].
    destruct (en !! "x"); cbn; [done | intros [= <-]; by eexists].
Qed.

(** X9: when no two edges of the simplified graph share a canonical key,
    no edge is dropped: there is one segment per edge, built from it, in
    iteration order. *)
Theorem unique_keys_all_emitted `{Runtime} Gs Gf doc :
  graph_to_json Gs Gf = Ok doc → NoDup (edge_key <$> G_edges Gs) →
  built_from Gs (G_edges Gs) (segments doc) ∧
  seg_id <$> segments doc = edge_segment_name <$> G_edges Gs.
Proof.
  intros (_ & Hbuilt & _)%graph_to_json_inv Hnodup.
  rewrite kept_edges_unique in Hbuilt by (done || set_solver).
  split; [done | by apply built_from_ids with Gs].
Qed.

Lemma unique_keys_all_emitted_witness :
  ∃ doc, graph_to_json parallel_streets_graph None = Ok doc ∧
    NoDup (edge_key <$> G_edges parallel_streets_graph) ∧
    length (G_edges parallel_streets_graph) = 2%nat ∧
    seg_id <$> segments doc = edge_segment_name <$> G_edges parallel_streets_graph.
Proof.
  assert (∃ doc, graph_to_json parallel_streets_graph None = Ok doc) as [doc Hrun]
    by (eexists; vm_compute; reflexivity).
  assert (NoDup (edge_key <$> G_edges parallel_streets_graph)) as Hnodup.
  { apply (bool_decide_unpack (NoDup _)). vm_compute. exact I. }
  exists doc. split_and!; [exact Hrun | exact Hnodup | reflexivity |].
  apply (unique_keys_all_emitted _ _ _ Hrun Hnodup).
Defined.

(** X10: the full graph has no influence on whether the export returns,
    on the exception it raises, or on [nodes], [segments] and
    [startingLocation]: none of its attributes can make the export fail. *)
Theorem full_graph_does_not_interfere `{Runtime} Gs Gf Gf' :
  match graph_to_json Gs Gf, graph_to_json Gs Gf' with
  | Ok doc, Ok doc' =>
      nodes doc = nodes doc' ∧ segments doc = segments doc' ∧
      startingLocation doc = startingLocation doc'
  | Raise err, Raise err' => err = err'
  | _, _ => False
  end.
Proof.
  unfold graph_to_json. destruct (for_each _ _ _) as [[seen segs]|]; cbn; [|done].
  by destruct (starting_location _).
Qed.

(** X11: when the export is run on one graph only, [fullGraphNodes] is
    [nodes] and every segment has an entry of [fullGraphEdges] with its
    start, its end and its length. *)
Theorem segments_have_full_graph_edges `{Runtime} Gs doc :
  graph_to_json Gs None = Ok doc →
  fullGraphNodes doc = nodes doc ∧
  ∀ s, s ∈ segments doc →
    {| fge_u := startNodeId s; fge_v := endNodeId s; fge_length := lengthMeters s |}
      ∈ fullGraphEdges doc.
Proof.
  intros Hrun. destruct (graph_to_json_inv _ _ _ Hrun) as (Hn & _ & _ & Hfn & Hfe).
  split; [by rewrite Hfn, Hn|]. intros s Hs.
  destruct (emitted_segment_source _ _ _ _ Hrun Hs) as ([[[u v] key] data] & He & Hb).
  apply build_segment_taken_from in Hb as (_ & -> & -> & -> & _).
  rewrite Hfe. apply list_elem_of_fmap. by exists (u, v, key, data).
Qed.

Lemma segments_have_full_graph_edges_witness :
  graph_to_json scenario_graph None = Ok scenario_document ∧
  fullGraphNodes scenario_document = nodes scenario_document.
Proof.
  assert (graph_to_json scenario_graph None = Ok scenario_document) as Hrun
    by (vm_compute; reflexivity).
  split; [exact Hrun|]. apply (segments_have_full_graph_edges scenario_graph _ Hrun).
Defined.

(** * Further properties of [main] *)

Lemma split_on_length (sep : ascii) (s : string) :
  length (split_on sep s) = S (count_char sep s).
Proof.
  induction s as [|c s IH]; cbn; [done|].
  destruct (Ascii.eqb c sep); cbn; [by rewrite IH|].
  destruct (split_on sep s) as [|piece pieces]; [done|]. cbn in *. lia.
Qed.

Section main_more.
Context `{Runtime}.
Context (py_float : string → option float).
Context (load_osm_graph :
  file_system → string → option (list float) → result (MultiDiGraph * MultiDiGraph)).
Context (open_for_writing : file_system → string → bool).
Context (json_dump : document → string * option exn).

#[local] Notation run := (main py_float load_osm_graph open_for_writing json_dump).

(** X13: a non-empty bbox that does not hold exactly three commas ends the
    run with status 1 and the file system untouched, whatever its pieces
    are. *)
Theorem bbox_needs_three_commas (a : args) (fs : file_system) (s : string) :
  bbox a = Some s → s ≠ "" → count_char "," s ≠ 3%nat → run a fs = (1, fs).
Proof.
  intros Hs Hne Hcount. unfold main, parsed_bbox.
  rewrite Hs, bool_decide_eq_false_2 by done.
  destruct (parse_bbox py_float s) as [b|] eqn:Hparse; [|done].
  apply parse_bbox_ok in Hparse as [Hlen Hall].
  apply Forall2_length in Hall. rewrite split_on_length in Hall. lia.
Qed.
End main_more.

Lemma bbox_needs_three_commas_witness :
  count_char "," "1,2,3" ≠ 3%nat ∧
  main (λ _, None) (λ _ _ _, Ok (scenario_graph, scenario_graph)) (λ _ _, true)
    complete_json_dump
    {| osm_file := "map.osm"; output_json := "out.json"; bbox := Some "1,2,3" |}
    sample_file_system
  = (1, sample_file_system).
Proof.
  assert (count_char "," "1,2,3" ≠ 3%nat) as Hcount by (vm_compute; lia).
  split; [exact Hcount|].
  apply (bbox_needs_three_commas _ _ _ _ _ _ "1,2,3"); [reflexivity | done | exact Hcount].
Defined.

(** * Properties of [load_osm_graph] *)

Section load_osm_graph_facts.
Context (PYROSM_AVAILABLE : bool).
Context (graph_from_xml : file_system → string → bool → result MultiDiGraph).
Context (truncate_graph_bbox :
  MultiDiGraph → float → float → float → float → result MultiDiGraph).
Context (graph_from_bbox : float → float → float → float → result MultiDiGraph).
Context (load_graph_from_pbf :
  file_system → string → option (list float) → result (MultiDiGraph * MultiDiGraph)).

#[local] Notation load := (load_osm_graph PYROSM_AVAILABLE graph_from_xml
  truncate_graph_bbox graph_from_bbox load_graph_from_pbf).

Lemma unpack_bbox_ok (bbox : list float) min_lat min_lon max_lat max_lon :
  unpack_bbox bbox = Ok (min_lat, min_lon, max_lat, max_lon) ↔
  bbox = [min_lat; min_lon; max_lat; max_lon].
Proof.
  destruct bbox as [|a [|b [|c [|d [|e l]]]]]; cbn; split; try done;
    by intros [= -> -> -> ->].
Qed.

(** X14: for a file that is no [.pbf], the graphs returned are the two
    readings of the file, unsimplified and simplified, each truncated to
    the bounding box, the Riga box when none is given, with (minLat,
    minLon, maxLat, maxLon) handed over as north = maxLat, south = minLat,
    east = maxLon, west = minLon; a box of another size than four makes
    the call raise. *)
Theorem xml_graphs_are_truncated fs osm_file bbox G_simplified G_full :
  endswith osm_file ".pbf" = false → bbox ≠ Some [] →
  load fs osm_file bbox = Ok (G_simplified, G_full) →
  ∃ min_lat min_lon max_lat max_lon read_full read_simplified,
    default RIGA_BBOX bbox = [min_lat; min_lon; max_lat; max_lon] ∧
    graph_from_xml fs osm_file false = Ok read_full ∧
    graph_from_xml fs osm_file true = Ok read_simplified ∧
    truncate_graph_bbox read_full max_lat min_lat max_lon min_lon = Ok G_full ∧
    truncate_graph_bbox read_simplified max_lat min_lat max_lon min_lon
      = Ok G_simplified.
Proof.
  intros Hxml Hne. unfold load_osm_graph. rewrite Hxml.
  destruct (graph_from_xml fs osm_file false) as [rf|]; cbn; [|done].
  destruct (graph_from_xml fs osm_file true) as [rs|]; cbn; [|done].
  rewrite bool_decide_eq_true_2 by (by destruct bbox as [[|]|]).
  destruct (unpack_bbox (default RIGA_BBOX bbox)) as [[[[a b] c] d]|] eqn:Hbox; cbn; [|done].
  apply unpack_bbox_ok in Hbox.
  destruct (truncate_graph_bbox rf c a d b) as [tf|] eqn:Htf; cbn; [|done].
  destruct (truncate_graph_bbox rs c a d b) as [ts|] eqn:Hts; cbn; [|done].
  intros [= <- <-]. by exists a, b, c, d, rf, rs.
Qed.

(** X15: for a [.pbf] file without pyrosm, the input file is not read: the
    result is the same on every file system, it is one downloaded graph
    returned twice, for the given box or the Riga box, and only the empty
    box raises the error that asks for pyrosm. *)
Theorem pbf_without_pyrosm_downloads fs osm_file bbox :
  PYROSM_AVAILABLE = false → endswith osm_file ".pbf" = true →
  (∀ fs', load fs' osm_file bbox = load fs osm_file bbox) ∧
  (∀ G_simplified G_full, load fs osm_file bbox = Ok (G_simplified, G_full) →
    G_simplified = G_full ∧
    ∃ min_lat min_lon max_lat max_lon,
      default RIGA_BBOX bbox = [min_lat; min_lon; max_lat; max_lon] ∧
      graph_from_bbox max_lat min_lat max_lon min_lon = Ok G_full) ∧
  (bbox = Some [] → load fs osm_file bbox = Raise pyrosm_missing).
Proof.
  intros Hpy Hpbf. unfold load_osm_graph. rewrite Hpy, Hpbf. cbn. split_and!.
  - done.
  - intros Gs Gf. case_bool_decide as Hne; [|done]. unfold load_graph_from_bbox.
    destruct (unpack_bbox (default RIGA_BBOX bbox)) as [[[[a b] c] d]|] eqn:Hbox; cbn; [|done].
    apply unpack_bbox_ok in Hbox.
    destruct (graph_from_bbox c a d b) as [G|] eqn:HG; cbn; [|done].
    intros [= <- <-]. split; [done|]. by exists a, b, c, d.
  - by intros ->.
Qed.
End load_osm_graph_facts.

Lemma xml_graphs_are_truncated_witness :
  let load := load_osm_graph true (λ _ _ _, Ok scenario_graph)
    (λ G _ _ _ _, Ok G) (λ _ _ _ _, Ok scenario_graph)
    (λ _ _ _, Raise no_edges_found) in
  endswith "map.osm" ".pbf" = false ∧
  load sample_file_system "map.osm" None = Ok (scenario_graph, scenario_graph) ∧
  ∃ min_lat min_lon max_lat max_lon,
    RIGA_BBOX = [min_lat; min_lon; max_lat; max_lon].
Proof.
  assert (endswith "map.osm" ".pbf" = false) as Hxml by (vm_compute; reflexivity).
  split; [exact Hxml|]. split; [vm_compute; reflexivity|].
  destruct (xml_graphs_are_truncated true (λ _ _ _, Ok scenario_graph)
    (λ G _ _ _ _, Ok G) (λ _ _ _ _, Ok scenario_graph)
    (λ _ _ _, Raise no_edges_found) sample_file_system "map.osm" None
    scenario_graph scenario_graph Hxml)
    as (a & b & c & d & _ & _ & Hbox & _); [done | vm_compute; reflexivity |].
  by exists a, b, c, d.
Defined.

Lemma pbf_without_pyrosm_downloads_witness :
  let load := load_osm_graph false (λ _ _ _, Ok scenario_graph)
    (λ G _ _ _ _, Ok G) (λ _ _ _ _, Ok scenario_graph)
    (λ _ _ _, Raise no_edges_found) in
  endswith "riga.osm.pbf" ".pbf" = true ∧
  load ∅ "riga.osm.pbf" None = load sample_file_system "riga.osm.pbf" None.
Proof.
  assert (endswith "riga.osm.pbf" ".pbf" = true) as Hpbf by (vm_compute; reflexivity).
  split; [exact Hpbf|].
  apply (proj1 (pbf_without_pyrosm_downloads false (λ _ _ _, Ok scenario_graph)
    (λ G _ _ _ _, Ok G) (λ _ _ _ _, Ok scenario_graph)
    (λ _ _ _, Raise no_edges_found) sample_file_system "riga.osm.pbf" None
    eq_refl Hpbf)).
Defined.

(** * Properties of [load_graph_from_pbf] *)

(** ** Dictionaries in insertion order *)

Section dict.
Context {V : Type}.
Implicit Types (d : list (Z * V)) (k : Z) (v : V).

Lemma dict_get_None d k : dict_get d k = None ↔ k ∉ d.*1.
Proof.
  induction d as [|[k' v'] d IH]; cbn; [by split; [intros _ ?%elem_of_nil|]|].
  case_bool_decide as Hk; rewrite not_elem_of_cons.
  - split; [done | naive_solver].
  - rewrite IH. naive_solver.
Qed.

Lemma dict_get_is_Some d k : is_Some (dict_get d k) ↔ k ∈ d.*1.
Proof.
  rewrite <-not_eq_None_Some, dict_get_None.
  split; [apply dec_stable | by intros ? ?].
Qed.

Lemma dict_get_Some_elem d k v : dict_get d k = Some v → (k, v) ∈ d.
Proof.
  induction d as [|[k' v'] d IH]; cbn; [done|]. case_bool_decide as Hk.
  - intros [= ->]. subst. by left.
  - intros ?. right. by apply IH.
Qed.

Lemma dict_get_elem d k v : NoDup d.*1 → (k, v) ∈ d → dict_get d k = Some v.
Proof.
  induction d as [|[k' v'] d IH]; cbn; [by intros _ ?%elem_of_nil|].
  intros [Hk' Hd]%NoDup_cons [[= -> ->]|Hin]%elem_of_cons.
  - by rewrite bool_decide_eq_true_2.
  - rewrite bool_decide_eq_false_2; [by apply IH|].
    intros ->. apply Hk'. by apply (list_elem_of_fmap_2 fst) in Hin.
Qed.

Lemma dict_set_absent d k v : dict_get d k = None → dict_set d k v = d ++ [(k, v)].
Proof.
  induction d as [|[k' v'] d IH]; cbn; [done|]. case_bool_decide; [done|].
  intros ?. f_equal. by apply IH.
Qed.

Lemma dict_set_keys d k v :
  (dict_set d k v).*1 = if dict_get d k is Some _ then d.*1 else d.*1 ++ [k].
Proof.
  induction d as [|[k' v'] d IH]; cbn; [done|]. case_bool_decide as Hk; cbn.
  - by subst.
  - rewrite IH. by destruct (dict_get d k).
Qed.

Lemma dict_set_NoDup d k v : NoDup d.*1 → NoDup (dict_set d k v).*1.
Proof.
  intros Hd. rewrite dict_set_keys. destruct (dict_get d k) eqn:Hk; [done|].
  apply NoDup_app. split_and!; [done | | apply NoDup_singleton].
  intros k' Hk' ->%list_elem_of_singleton. by apply dict_get_None in Hk.
Qed.

Lemma dict_set_elem d k v k' v' :
  (k', v') ∈ dict_set d k v → (k', v') = (k, v) ∨ (k', v') ∈ d.
Proof.
  induction d as [|[k0 v0] d IH]; cbn.
  - intros ?%list_elem_of_singleton. by left.
  - case_bool_decide as Hk.
    + intros [?|?]%elem_of_cons; [by left | right; by right].
    + intros [Heq|Hin]%elem_of_cons; [right; rewrite Heq; by left|].
      destruct (IH Hin); [by left | right; by right].
Qed.

Lemma dict_get_set d k v k' :
  dict_get (dict_set d k v) k' = if bool_decide (k = k') then Some v else dict_get d k'.
Proof.
  induction d as [|[k0 v0] d IH]; cbn.
  - by case_bool_decide.
  - repeat case_bool_decide; subst; cbn; rewrite ?IH;
      repeat case_bool_decide; congruence.
Qed.

Lemma inserted_snoc {A} (x : A) (l : list A) : inserted x l (l ++ [x]).
Proof. exists l, []. by rewrite app_nil_r. Qed.

Lemma inserted_app_l {A} (x : A) (l l' h : list A) :
  inserted x l l' → inserted x (h ++ l) (h ++ l').
Proof.
  intros (pre & post & -> & ->). exists (h ++ pre), post. by rewrite <-!app_assoc.
Qed.

Lemma inserted_app_r {A} (x : A) (l l' h : list A) :
  inserted x l l' → inserted x (l ++ h) (l' ++ h).
Proof.
  intros (pre & post & -> & ->). exists pre, (post ++ h). by rewrite <-!app_assoc.
Qed.

(** Setting a key changes the loops over a dictionary only where the
    value of that key is read. *)
Lemma bind_dict_set_inserted {A} (f : Z * V → list A) d k v (x : A) :
  match dict_get d k with
  | Some old => inserted x (f (k, old)) (f (k, v))
  | None => f (k, v) = [x]
  end →
  inserted x (d ≫= f) (dict_set d k v ≫= f).
Proof.
  induction d as [|[k' v'] d IH]; cbn.
  - intros ->. by exists [], [].
  - case_bool_decide as Hk; rewrite !bind_cons.
    + subst. apply inserted_app_r.
    + intros ?. apply inserted_app_l. by apply IH.
Qed.
End dict.

Lemma dict_keys_get {V W} (d : list (Z * V)) (d' : list (Z * W)) k :
  d.*1 = d'.*1 → dict_get d k = None ↔ dict_get d' k = None.
Proof. intros Hkeys. by rewrite !dict_get_None, Hkeys. Qed.

Lemma inserted_perm {A} (x : A) l l' : inserted x l l' → l' ≡ₚ x :: l.
Proof. intros (pre & post & -> & ->). by rewrite Permutation_middle. Qed.

Lemma nodes_getitem_dict_get (l : list (Z * node_attrs)) n :
  nodes_getitem l n =
    match dict_get l n with
    | Some data => Ok data
    | None => Raise (KeyError (pretty n))
    end.
Proof. induction l as [|[m d] l IH]; cbn; [done|]. by case_bool_decide. Qed.

(** ** The graph builder *)

Lemma add_node_edges G n attr : nx_edges (add_node G n attr) = nx_edges G.
Proof.
  unfold add_node, nx_edges. destruct (dict_get (nx_adj G) n) eqn:Hn; cbn; [done|].
  rewrite (dict_set_absent _ _ _ Hn), bind_app. cbn. by rewrite !app_nil_r.
Qed.

Lemma add_node_edge_count G n attr u v :
  edge_count (add_node G n attr) u v = edge_count G u v.
Proof.
  unfold add_node, edge_count. destruct (dict_get (nx_adj G) n) eqn:Hn; cbn; [done|].
  rewrite dict_get_set. case_bool_decide as Hu; [|done]. subst. by rewrite Hn.
Qed.

Lemma add_node_wf G n attr : nx_wf G → nx_wf (add_node G n attr).
Proof.
  intros [Hnode Hadj Hsucc Hkeys]. unfold add_node.
  destruct (dict_get (nx_adj G) n) as [succ|] eqn:Hn.
  - assert (is_Some (dict_get (nx_node G) n)) as [old Hold].
    { apply dict_get_is_Some. rewrite <-Hadj. apply dict_get_is_Some. by eexists. }
    split; cbn.
    + by apply dict_set_NoDup.
    + by rewrite dict_set_keys, Hold.
    + done.
    + intros u s v kd Hu Hv. rewrite dict_set_keys, Hold. by eapply Hkeys.
  - assert (dict_get (nx_node G) n = None) as Hnone.
    { by apply (dict_keys_get _ _ _ Hadj). }
    split; cbn.
    + by apply dict_set_NoDup.
    + by rewrite !dict_set_keys, Hn, Hnone, Hadj.
    + intros u s [[= -> ->]|Hin]%dict_set_elem; [apply NoDup_nil_2 | by eapply Hsucc].
    + intros u s v kd [[= -> ->]|Hin]%dict_set_elem Hv; [by apply elem_of_nil in Hv|].
      rewrite dict_set_keys, Hnone. destruct (Hkeys _ _ _ _ Hin Hv) as [? ?].
      split; [|done]. apply elem_of_app. by left.
Qed.

Lemma add_node_ids G n attr m :
  nx_wf G → m ∈ (nx_node (add_node G n attr)).*1 ↔ m = n ∨ m ∈ (nx_node G).*1.
Proof.
  intros [Hnode Hadj Hsucc Hkeys]. unfold add_node.
  destruct (dict_get (nx_adj G) n) as [succ|] eqn:Hn; cbn; rewrite dict_set_keys.
  - assert (is_Some (dict_get (nx_node G) n)) as [old Hold].
    { apply dict_get_is_Some. rewrite <-Hadj. apply dict_get_is_Some. by eexists. }
    rewrite Hold. split; [by right|]. intros [->|?]; [|done].
    apply dict_get_is_Some. by eexists.
  - assert (dict_get (nx_node G) n = None) as ->.
    { by apply (dict_keys_get _ _ _ Hadj). }
    rewrite elem_of_app, list_elem_of_singleton. tauto.
Qed.

Lemma add_node_coordinates G n (x y : float) :
  nodes_have_coordinates (nx_node G) →
  nodes_have_coordinates (nx_node (add_node G n (<["x" := x]> (<["y" := y]> ∅)))).
Proof.
  intros Hxy m data. unfold add_node.
  destruct (dict_get (nx_adj G) n); cbn; intros [[= -> ->]|Hin]%dict_set_elem;
    try by eapply Hxy.
  - split; apply lookup_union_is_Some; left; by eexists.
  - split; by eexists.
Qed.

Lemma nx_wf_empty : nx_wf nx_empty.
Proof.
  split; cbn; [apply NoDup_nil_2 | done | |].
  - by intros ? ? ?%elem_of_nil.
  - by intros ? ? ? ? ?%elem_of_nil.
Qed.

Lemma add_node_row_inv G row G' :
  add_node_row G row = Ok G' →
  ∃ x y, G' = add_node G (row_id row) (<["x" := x]> (<["y" := y]> ∅)) ∧
    (if row_lon row is Some lon then Some lon else fst <$> row_point row) = Some x ∧
    (if row_lat row is Some lat then Some lat else snd <$> row_point row) = Some y.
Proof.
  unfold add_node_row.
  destruct (row_lon row), (row_lat row), (row_point row) as [[??]|]; cbn;
    intros [= <-]; by eexists _, _.
Qed.

Lemma add_node_absent G n attr :
  nx_wf G → n ∉ (nx_node G).*1 → nx_node (add_node G n attr) = nx_node G ++ [(n, attr)].
Proof.
  intros Hwf Hn. unfold add_node.
  assert (dict_get (nx_node G) n = None) as Hnone by by apply dict_get_None.
  assert (dict_get (nx_adj G) n = None) as ->.
  { by apply (dict_keys_get _ _ _ (wf_adj _ Hwf)). }
  cbn. by apply dict_set_absent.
Qed.

Lemma node_loop_inv rows : ∀ G0 G,
  for_each add_node_row G0 rows = Ok G →
  nx_wf G0 → nodes_have_coordinates (nx_node G0) →
  nx_wf G ∧ nodes_have_coordinates (nx_node G) ∧ nx_edges G = nx_edges G0 ∧
  (∀ u v, edge_count G u v = edge_count G0 u v) ∧
  (∀ n, n ∈ (nx_node G).*1 ↔ n ∈ (nx_node G0).*1 ∨ n ∈ row_id <$> rows).
Proof.
  induction rows as [|row rows IH]; intros G0 G; cbn [for_each].
  - intros [= <-] ? ?. split_and!; try done. intros n. rewrite elem_of_nil. tauto.
  - destruct (add_node_row G0 row) as [G1|] eqn:Hrow; [|done]. cbn.
    apply add_node_row_inv in Hrow as (x & y & -> & _).
    intros Hrun Hwf Hxy.
    destruct (IH _ _ Hrun (add_node_wf _ _ _ Hwf) (add_node_coordinates _ _ _ _ Hxy))
      as (? & ? & -> & Hcount & Hids).
    split_and!; [done | done | by rewrite add_node_edges | |].
    + intros u v. by rewrite Hcount, add_node_edge_count.
    + intros n. rewrite Hids, add_node_ids by done. cbn. rewrite elem_of_cons. tauto.
Qed.

Lemma new_edge_key_spec G u v succ :
  nx_wf G → dict_get (nx_adj G) u = Some succ →
  new_edge_key G u v = Z.of_nat (length (default [] (dict_get succ v))) ∧
  dict_get (default [] (dict_get succ v))
    (Z.of_nat (length (default [] (dict_get succ v)))) = None.
Proof.
  intros Hwf Hu. unfold new_edge_key. rewrite Hu. cbn.
  destruct (dict_get succ v) as [kd|] eqn:Hv; cbn; [|done].
  assert (dict_get kd (Z.of_nat (length kd)) = None) as Hfree.
  { apply dict_get_None.
    destruct (wf_keys _ Hwf u succ v kd) as [_ ->]; [by apply dict_get_Some_elem..|].
    rewrite elem_of_seqZ. lia. }
  split; [|done]. destruct (length kd); cbn [first_free_key]; [done|]. by rewrite Hfree.
Qed.

(** With both ends in the graph, [add_edge] appends one entry to the keys
    between them. *)
Lemma add_edge_spec G u v attr :
  nx_wf G → u ∈ (nx_node G).*1 → v ∈ (nx_node G).*1 →
  ∃ succ, dict_get (nx_adj G) u = Some succ ∧
    add_edge G u v attr =
      {| nx_node := nx_node G;
         nx_adj := dict_set (nx_adj G) u (dict_set succ v
           (default [] (dict_get succ v) ++
            [(Z.of_nat (length (default [] (dict_get succ v))), attr)])) |}.
Proof.
  intros Hwf Hu Hv.
  assert (is_Some (dict_get (nx_adj G) u)) as [succ Hsucc].
  { apply dict_get_is_Some. by rewrite (wf_adj _ Hwf). }
  assert (is_Some (dict_get (nx_adj G) v)) as [succ' Hsucc'].
  { apply dict_get_is_Some. by rewrite (wf_adj _ Hwf). }
  exists succ. split; [done|]. unfold add_edge. rewrite Hsucc. cbn. rewrite Hsucc'. cbn.
  rewrite Hsucc. cbn.
  destruct (new_edge_key_spec G u v succ Hwf Hsucc) as [-> Hfree].
  rewrite Hfree. cbn. by rewrite (right_id_L ∅ (∪)), (dict_set_absent _ _ _ Hfree).
Qed.

Lemma add_edge_wf G u v attr :
  nx_wf G → u ∈ (nx_node G).*1 → v ∈ (nx_node G).*1 → nx_wf (add_edge G u v attr).
Proof.
  intros Hwf Hu Hv. destruct (add_edge_spec G u v attr Hwf Hu Hv) as (succ & Hsucc & ->).
  pose proof (dict_get_Some_elem _ _ _ Hsucc) as Hin.
  destruct Hwf as [Hnode Hadj Hsuccs Hkeys]. split; cbn.
  - done.
  - by rewrite dict_set_keys, Hsucc.
  - intros u' s [[= -> ->]|Hin']%dict_set_elem; [|by eapply Hsuccs].
    apply dict_set_NoDup. by eapply Hsuccs.
  - intros u' s v' kd' [[= -> ->]|Hin']%dict_set_elem; [|by eapply Hkeys].
    intros [[= -> ->]|Hin'']%dict_set_elem; [|by eapply Hkeys].
    split; [done|]. rewrite fmap_app, length_app. cbn.
    rewrite Nat.add_1_r, seqZ_S. f_equal.
    destruct (dict_get succ v) as [kd|] eqn:Hkd; cbn; [|done].
    by destruct (Hkeys u succ v kd Hin (dict_get_Some_elem _ _ _ Hkd)) as [_ ?].
Qed.

Lemma add_edge_nodes G u v attr :
  nx_wf G → u ∈ (nx_node G).*1 → v ∈ (nx_node G).*1 →
  nx_node (add_edge G u v attr) = nx_node G.
Proof.
  intros Hwf Hu Hv. by destruct (add_edge_spec G u v attr Hwf Hu Hv) as (succ & _ & ->).
Qed.

Lemma add_edge_inserted G u v attr :
  nx_wf G → u ∈ (nx_node G).*1 → v ∈ (nx_node G).*1 →
  inserted (u, v, Z.of_nat (edge_count G u v), attr)
    (nx_edges G) (nx_edges (add_edge G u v attr)).
Proof.
  intros Hwf Hu Hv. destruct (add_edge_spec G u v attr Hwf Hu Hv) as (succ & Hsucc & ->).
  unfold nx_edges, edge_count. cbn. rewrite Hsucc. cbn.
  apply bind_dict_set_inserted. rewrite Hsucc. unfold successors_edges.
  apply bind_dict_set_inserted. destruct (dict_get succ v) as [kd|]; cbn; [|done].
  unfold keydict_edges. rewrite fmap_app. apply inserted_snoc.
Qed.

Lemma add_edge_edge_count G u v attr u' v' :
  nx_wf G → u ∈ (nx_node G).*1 → v ∈ (nx_node G).*1 →
  edge_count (add_edge G u v attr) u' v' =
    (edge_count G u' v' + if bool_decide (u' = u ∧ v' = v) then 1 else 0)%nat.
Proof.
  intros Hwf Hu Hv. destruct (add_edge_spec G u v attr Hwf Hu Hv) as (succ & Hsucc & ->).
  unfold edge_count. cbn. rewrite dict_get_set.
  destruct (decide (u = u')) as [<-|Hu'].
  - rewrite bool_decide_eq_true_2, Hsucc by done. cbn. rewrite dict_get_set.
    destruct (decide (v = v')) as [<-|Hv'].
    + rewrite !bool_decide_eq_true_2 by done. cbn. by rewrite length_app.
    + rewrite !bool_decide_eq_false_2 by naive_solver. lia.
  - rewrite !bool_decide_eq_false_2 by naive_solver. lia.
Qed.

Lemma row_accepted_ids G row :
  row_accepted G row = true ↔ row_u row ∈ (nx_node G).*1 ∧ row_v row ∈ (nx_node G).*1.
Proof.
  unfold row_accepted. by rewrite andb_true_iff, !bool_decide_eq_true, !dict_get_is_Some.
Qed.

Lemma edge_loop_inv rows : ∀ G before ids,
  nx_wf G → (∀ n, n ∈ (nx_node G).*1 ↔ n ∈ ids) →
  (∀ u v, edge_count G u v = length (filter (λ r, row_u r = u ∧ row_v r = v) before)) →
  nx_wf (fold_left add_edge_row rows G) ∧
  nx_node (fold_left add_edge_row rows G) = nx_node G ∧
  nx_edges (fold_left add_edge_row rows G)
    ≡ₚ nx_edges G ++ keyed_edges before (accepted_rows ids rows).
Proof.
  induction rows as [|row rows IH]; intros G before ids Hwf Hids Hcount; cbn [fold_left].
  - split_and!; [done..|]. cbn. by rewrite app_nil_r.
  - unfold add_edge_row at 2 4 6, accepted_rows.
    destruct (row_accepted G row) eqn:Hacc.
    + apply row_accepted_ids in Hacc as [Hu Hv].
      rewrite filter_cons_True by (by rewrite <-!Hids).
      pose proof (add_edge_nodes G _ _ (edge_data row) Hwf Hu Hv) as Hnode.
      destruct (IH (add_edge G (row_u row) (row_v row) (edge_data row))
        (before ++ [row]) ids) as (Hwf' & Hnode' & ->).
      * by apply add_edge_wf.
      * by rewrite Hnode.
      * intros u v. rewrite add_edge_edge_count, Hcount, filter_app, length_app by done.
        f_equal. rewrite filter_cons, filter_nil.
        destruct (decide (row_u row = u ∧ row_v row = v)) as [[<- <-]|Hne].
        -- by rewrite bool_decide_eq_true_2.
        -- rewrite bool_decide_eq_false_2; [done|]. naive_solver.
      * split_and!; [done | by rewrite Hnode' |]. cbn [keyed_edges].
        rewrite (inserted_perm _ _ _ (add_edge_inserted G _ _ (edge_data row) Hwf Hu Hv)).
        rewrite Hcount. unfold parallel_rows, accepted_rows. cbn.
        by rewrite Permutation_middle.
    + rewrite filter_cons_False; [by apply IH|].
      rewrite <-!Hids. intros Hacc'%row_accepted_ids. congruence.
Qed.

Lemma build_full_graph_inv nodes_gdf edges_gdf G :
  build_full_graph nodes_gdf edges_gdf = Ok G →
  nx_wf G ∧ nodes_have_coordinates (nx_node G) ∧
  (∀ n, n ∈ (nx_node G).*1 ↔ n ∈ row_id <$> nodes_gdf) ∧
  nx_edges G ≡ₚ keyed_edges [] (accepted_rows (row_id <$> nodes_gdf) edges_gdf).
Proof.
  unfold build_full_graph.
  destruct (for_each add_node_row nx_empty nodes_gdf) as [G0|] eqn:Hnodes; [|done].
  cbn. intros [= <-].
  destruct (node_loop_inv _ _ _ Hnodes nx_wf_empty) as (Hwf & Hxy & Hedges & Hcount & Hids).
  { by intros ? ? ?%elem_of_nil. }
  assert (∀ n, n ∈ (nx_node G0).*1 ↔ n ∈ row_id <$> nodes_gdf) as Hids'.
  { intros n. rewrite Hids. cbn. rewrite elem_of_nil. tauto. }
  destruct (edge_loop_inv edges_gdf G0 [] _ Hwf Hids') as (? & Hnode & Hperm).
  { intros u v. by rewrite Hcount. }
  rewrite Hnode. split_and!; [done..|]. by rewrite Hperm, Hedges.
Qed.

Lemma dict_elem_unique {V} (d : list (Z * V)) k v1 v2 :
  NoDup d.*1 → (k, v1) ∈ d → (k, v2) ∈ d → v1 = v2.
Proof.
  intros Hd H1%(dict_get_elem _ _ _ Hd) H2%(dict_get_elem _ _ _ Hd). congruence.
Qed.

Lemma nx_edges_elem G u v key data :
  (u, v, key, data) ∈ nx_edges G ↔
  ∃ succ kd, (u, succ) ∈ nx_adj G ∧ (v, kd) ∈ succ ∧ (key, data) ∈ kd.
Proof.
  unfold nx_edges, successors_edges, keydict_edges. rewrite list_elem_of_bind. split.
  - intros ([u' succ] & Hin & Hadj).
    apply list_elem_of_bind in Hin as ([v' kd] & Hin & Hsucc).
    apply list_elem_of_fmap in Hin as ([key' data'] & [= -> -> -> ->] & Hkd). eauto.
  - intros (succ & kd & Hadj & Hsucc & Hkd). exists (u, succ). split; [|done].
    apply list_elem_of_bind. exists (v, kd). split; [|done].
    apply list_elem_of_fmap. by exists (key, data).
Qed.

(** networkx keeps the (u, v, key) of a multigraph unique. *)
Lemma nx_edges_unique G e1 e2 :
  nx_wf G → e1 ∈ nx_edges G → e2 ∈ nx_edges G → edge_triple e1 = edge_triple e2 → e1 = e2.
Proof.
  intros Hwf. destruct e1 as [[[u v] key] d1], e2 as [[[u' v'] key'] d2].
  intros (s1 & kd1 & Hs1 & Hkd1 & Hd1)%nx_edges_elem
    (s2 & kd2 & Hs2 & Hkd2 & Hd2)%nx_edges_elem [= <- <- <-].
  assert (NoDup (nx_adj G).*1) as Hadj by (rewrite (wf_adj _ Hwf); apply Hwf).
  assert (s2 = s1) as -> by by eapply dict_elem_unique.
  assert (kd2 = kd1) as -> by (eapply dict_elem_unique; [by eapply wf_succ|done..]).
  f_equal. eapply (dict_elem_unique kd1); [|done..].
  destruct (wf_keys _ Hwf _ _ _ _ Hs1 Hkd1) as [_ ->]. apply NoDup_seqZ.
Qed.

Lemma nx_edges_NoDup G : nx_wf G → NoDup (nx_edges G).
Proof.
  intros Hwf.
  assert (NoDup (nx_adj G).*1) as Hadj by (rewrite (wf_adj _ Hwf); apply Hwf).
  unfold nx_edges. apply NoDup_bind; [| |by eapply NoDup_fmap_1].
  - intros [u1 s1] [u2 s2] [[[u v] key] data] H1 H2.
    intros ([v1 kd1] & Hin1 & _)%list_elem_of_bind ([v2 kd2] & Hin2 & _)%list_elem_of_bind.
    apply list_elem_of_fmap in Hin1 as ([??] & [= -> _ _ _] & _).
    apply list_elem_of_fmap in Hin2 as ([??] & [= -> _ _ _] & _).
    f_equal. by eapply dict_elem_unique.
  - intros [u succ] Hu. unfold successors_edges.
    pose proof (wf_succ _ Hwf _ _ Hu) as Hsucc.
    apply NoDup_bind; [| |by eapply NoDup_fmap_1].
    + intros [v1 kd1] [v2 kd2] [[[u' v] key] data] H1 H2.
      intros ([??] & [= _ -> _ _] & _)%list_elem_of_fmap
        ([??] & [= _ -> _ _] & _)%list_elem_of_fmap.
      f_equal. by eapply dict_elem_unique.
    + intros [v kd] Hv. unfold keydict_edges.
      destruct (wf_keys _ Hwf _ _ _ _ Hu Hv) as [_ Hkeys].
      apply NoDup_fmap_2_strong.
      * by intros [??] [??] _ _ [= -> ->].
      * eapply NoDup_fmap_1. rewrite Hkeys. apply NoDup_seqZ.
Qed.

Lemma nx_triples_NoDup G : nx_wf G → NoDup (edge_triple <$> nx_edges G).
Proof.
  intros Hwf. apply NoDup_fmap_2_strong; [|by apply nx_edges_NoDup].
  intros e1 e2. by apply nx_edges_unique.
Qed.

Lemma nx_edges_end_in_nodes G : nx_wf G → edges_end_in_nodes (nx_view G).
Proof.
  intros Hwf u v key data (succ & kd & Hu & Hv & _)%nx_edges_elem. cbn. split.
  - rewrite <-(wf_adj _ Hwf). by apply (list_elem_of_fmap_2 fst) in Hu.
  - by destruct (wf_keys _ Hwf _ _ _ _ Hu Hv).
Qed.

Lemma keyed_edges_length rows : ∀ before, length (keyed_edges before rows) = length rows.
Proof. induction rows as [|row rows IH]; intros before; cbn; [done|]. by rewrite IH. Qed.

Lemma keyed_edges_elem rows : ∀ before e,
  e ∈ keyed_edges before rows →
  ∃ row key, row ∈ rows ∧ e = (row_u row, row_v row, key, edge_data row).
Proof.
  induction rows as [|row rows IH]; intros before e; cbn.
  - by intros ?%elem_of_nil.
  - intros [->|(row' & key & ? & ->)%IH]%elem_of_cons.
    + eexists row, _. split; [by left | done].
    + eexists row', _. split; [by right | done].
Qed.

Lemma accepted_rows_elem ids rows row :
  row ∈ accepted_rows ids rows ↔ (row_u row ∈ ids ∧ row_v row ∈ ids) ∧ row ∈ rows.
Proof. unfold accepted_rows. by rewrite list_elem_of_filter. Qed.

(** A node row has a position when it has a point, or the frame has both
    coordinate columns. *)
Lemma add_node_row_ok G row :
  (∃ G', add_node_row G row = Ok G') ↔
  is_Some (row_point row) ∨ (is_Some (row_lon row) ∧ is_Some (row_lat row)).
Proof.
  unfold add_node_row.
  destruct (row_lon row), (row_lat row), (row_point row) as [[??]|]; cbn; split;
    try (intros _; by eexists); try (by intros [? ?]);
    try (intros _; by (left + right); repeat split; eexists).
  all: intros [[? [=]]|[[? ?] [? ?]]]; done.
Qed.

Lemma add_node_row_raise G row err :
  add_node_row G row = Raise err → err = AttributeError "x" ∨ err = AttributeError "y".
Proof.
  unfold add_node_row.
  destruct (row_lon row), (row_lat row), (row_point row) as [[??]|]; cbn;
    intros [= <-]; by (left + right).
Qed.

Lemma node_loop_result rows : ∀ G0,
  match for_each add_node_row G0 rows with
  | Ok _ => Forall (λ row, is_Some (row_point row) ∨
                     (is_Some (row_lon row) ∧ is_Some (row_lat row))) rows
  | Raise err =>
      (err = AttributeError "x" ∨ err = AttributeError "y") ∧
      Exists (λ row, row_point row = None ∧
                (row_lon row = None ∨ row_lat row = None)) rows
  end.
Proof.
  induction rows as [|row rows IH]; intros G0; cbn [for_each]; [by constructor|].
  destruct (add_node_row G0 row) as [G1|err] eqn:Hrow; cbn.
  - assert (is_Some (row_point row) ∨ (is_Some (row_lon row) ∧ is_Some (row_lat row)))
      as Hpos by (apply (add_node_row_ok G0); by eexists).
    specialize (IH G1). destruct (for_each add_node_row G1 rows).
    + by constructor.
    + destruct IH as [? ?]. split; [done|]. by apply Exists_cons_tl.
  - split; [by eapply add_node_row_raise|]. apply Exists_cons_hd.
    destruct (row_point row) as [p|] eqn:Hp.
    + assert (∃ G', add_node_row G0 row = Ok G') as [? ?]; [|congruence].
      apply add_node_row_ok. left. by rewrite Hp.
    + split; [done|]. destruct (row_lon row) eqn:Hlon; [|by left].
      destruct (row_lat row) eqn:Hlat; [|by right].
      assert (∃ G', add_node_row G0 row = Ok G') as [? ?]; [|congruence].
      apply add_node_row_ok. right. by rewrite Hlon, Hlat.
Qed.

Lemma node_loop_distinct rows : ∀ G0 G,
  for_each add_node_row G0 rows = Ok G → nx_wf G0 →
  NoDup (row_id <$> rows) → (∀ n, n ∈ row_id <$> rows → n ∉ (nx_node G0).*1) →
  ∃ nds, nx_node G = nx_node G0 ++ nds ∧
    Forall2 (λ row nd, nd.1 = row_id row ∧
      nd.2 !! "x" = (if row_lon row is Some lon then Some lon else fst <$> row_point row) ∧
      nd.2 !! "y" = (if row_lat row is Some lat then Some lat else snd <$> row_point row))
      rows nds.
Proof.
  induction rows as [|row rows IH]; intros G0 G; cbn [for_each].
  - intros [= <-] _ _ _. exists []. by rewrite app_nil_r.
  - destruct (add_node_row G0 row) as [G1|] eqn:Hrow; [|done]. cbn.
    apply add_node_row_inv in Hrow as (x & y & -> & Hx & Hy).
    intros Hrun Hwf [Hid Hids]%NoDup_cons Hfresh.
    assert (row_id row ∉ (nx_node G0).*1) as Hnew by (apply Hfresh; by left).
    pose proof (add_node_absent G0 _ (<["x" := x]> (<["y" := y]> ∅)) Hwf Hnew) as Hnode.
    destruct (IH _ _ Hrun (add_node_wf _ _ _ Hwf) Hids) as (nds & -> & Hnds).
    { intros n Hn. rewrite Hnode, fmap_app, not_elem_of_app. split.
      - apply Hfresh. by right.
      - cbn. intros ->%list_elem_of_singleton. done. }
    eexists (_ :: nds). rewrite Hnode, <-app_assoc. split; [done|].
    constructor; [|done]. cbn. rewrite Hx, Hy. by simplify_map_eq.
Qed.

Lemma build_full_graph_raise nodes_gdf edges_gdf err :
  build_full_graph nodes_gdf edges_gdf = Raise err →
  err = AttributeError "x" ∨ err = AttributeError "y".
Proof.
  unfold build_full_graph. pose proof (node_loop_result nodes_gdf nx_empty) as Hloop.
  destruct (for_each add_node_row nx_empty nodes_gdf); [done|]. cbn.
  intros [= <-]. by destruct Hloop.
Qed.

Lemma edge_data_geometry row : edge_data row !! "geometry" = row_geometry row.
Proof. unfold edge_data. destruct (row_geometry row); by simplify_map_eq. Qed.

Lemma edge_data_osmid row :
  edge_data row !! "osmid" =
    Some (default (default (VInt 0) (row_columns row !! "osmid")) (row_columns row !! "id")).
Proof. unfold edge_data. destruct (row_geometry row); by simplify_map_eq. Qed.

Lemma edge_data_length row :
  edge_data row !! "length" = Some (default (VFloat 0) (row_columns row !! "length")).
Proof. unfold edge_data. destruct (row_geometry row); by simplify_map_eq. Qed.

(** Every edge of the built graph is the edge of a row whose ends are
    node rows. *)
Lemma build_full_graph_edge nodes_gdf edges_gdf G u v key data :
  build_full_graph nodes_gdf edges_gdf = Ok G → (u, v, key, data) ∈ nx_edges G →
  ∃ row, row ∈ edges_gdf ∧ u = row_u row ∧ v = row_v row ∧ data = edge_data row.
Proof.
  intros (_ & _ & _ & Hperm)%build_full_graph_inv. rewrite Hperm.
  intros (row & key' & [_ Hrow]%accepted_rows_elem & [= -> -> _ ->])%keyed_edges_elem.
  by exists row.
Qed.

Lemma build_full_graph_coordinates nodes_gdf edges_gdf G n :
  build_full_graph nodes_gdf edges_gdf = Ok G → n ∈ (nx_node G).*1 →
  has_coordinates (nx_view G) n.
Proof.
  intros (Hwf & Hxy & _)%build_full_graph_inv [data Hn]%dict_get_is_Some.
  destruct (Hxy n data (dict_get_Some_elem _ _ _ Hn)) as [[y Hy] [x Hx]].
  exists data, y, x. cbn. by rewrite nodes_getitem_dict_get, Hn.
Qed.

Section load_graph_from_pbf_facts.
Context (get_network : file_system → string → option (list float) →
  result (list node_row * option (list edge_row))).
Context (simplify_graph : MultiDiGraph → result MultiDiGraph).

#[local] Notation load_pbf := (load_graph_from_pbf get_network simplify_graph).

Lemma load_graph_from_pbf_inv fs pbf_file bbox G_simplified G_full :
  load_pbf fs pbf_file bbox = Ok (G_simplified, G_full) →
  ∃ bounding_box nodes_gdf edges_gdf G,
    match bbox with
    | Some ((_ :: _) as bbox) =>
        ∃ min_lat min_lon max_lat max_lon,
          bbox = [min_lat; min_lon; max_lat; max_lon] ∧
          bounding_box = Some [min_lon; min_lat; max_lon; max_lat]
    | _ => bounding_box = None
    end ∧
    get_network fs pbf_file bounding_box = Ok (nodes_gdf, Some edges_gdf) ∧
    edges_gdf ≠ [] ∧
    build_full_graph nodes_gdf edges_gdf = Ok G ∧
    G_full = nx_view G ∧
    match simplify_graph G_full with
    | Ok G => G_simplified = G
    | Raise _ => G_simplified = G_full
    end.
Proof.
  unfold load_graph_from_pbf.
  set (bb := match bbox with Some ((_ :: _) as b) => _ | _ => _ end).
  destruct bb as [bounding_box|] eqn:Hbb; [|done]. cbn.
  destruct (get_network fs pbf_file bounding_box) as [[nodes_gdf edges_gdf]|] eqn:Hnet;
    [|done]. cbn.
  destruct edges_gdf as [[|row rows]|]; [done| |done].
  destruct (build_full_graph nodes_gdf (row :: rows)) as [G|] eqn:Hbuild; [|done]. cbn.
  intros [= <- <-]. exists bounding_box, nodes_gdf, (row :: rows), G.
  split_and!; [|done..|by destruct (simplify_graph (nx_view G))].
  subst bb. destruct bbox as [[|a l]|]; [by injection Hbb| |by injection Hbb].
  destruct (unpack_bbox (a :: l)) as [[[[min_lat min_lon] max_lat] max_lon]|] eqn:Hun;
    [|by simpl in Hbb].
  apply unpack_bbox_ok in Hun. simpl in Hbb. injection Hbb as <-. by eexists _, _, _, _.
Qed.

(** X16: without edge rows (no frame, or an empty one) the PBF loader
    raises its [ValueError], and it raises that error in no other case;
    pyrosm is asked for the box in the order west, south, east, north. *)
Theorem pbf_edges_required fs pbf_file min_lat min_lon max_lat max_lon nodes_gdf edges_gdf :
  get_network fs pbf_file (Some [min_lon; min_lat; max_lon; max_lat])
    = Ok (nodes_gdf, edges_gdf) →
  load_pbf fs pbf_file (Some [min_lat; min_lon; max_lat; max_lon]) = Raise no_edges_found
  ↔ edges_gdf = None ∨ edges_gdf = Some [].
Proof.
  intros Hnet. unfold load_graph_from_pbf. cbn. rewrite Hnet. cbn.
  destruct edges_gdf as [[|row rows]|]; [by split; [right|] | | by split; [left|]].
  split; [|by intros [|]].
  destruct (build_full_graph nodes_gdf (row :: rows)) as [G|err] eqn:Hbuild; [done|].
  cbn. intros [= ->]. by apply build_full_graph_raise in Hbuild as [|].
Qed.

(** X17: when pyrosm returns edge rows and every node row has a position
    (a point, or both coordinate columns), the PBF loader returns, whatever
    [ox.simplify_graph] does: the full graph is the graph of the rows, and
    the simplified graph is the simplification when that returns and the
    full graph itself when it raises. *)
Theorem pbf_simplification_is_optional fs pbf_file min_lat min_lon max_lat max_lon
    nodes_gdf edges_gdf :
  get_network fs pbf_file (Some [min_lon; min_lat; max_lon; max_lat])
    = Ok (nodes_gdf, Some edges_gdf) →
  edges_gdf ≠ [] →
  Forall (λ row, is_Some (row_point row) ∨
            (is_Some (row_lon row) ∧ is_Some (row_lat row))) nodes_gdf →
  ∃ G, build_full_graph nodes_gdf edges_gdf = Ok G ∧
    load_pbf fs pbf_file (Some [min_lat; min_lon; max_lat; max_lon]) =
      Ok (match simplify_graph (nx_view G) with
          | Ok G_simplified => G_simplified
          | Raise _ => nx_view G
          end, nx_view G).
Proof.
  intros Hnet Hne Hpos. unfold load_graph_from_pbf. cbn. rewrite Hnet. cbn.
  destruct edges_gdf as [|row rows]; [done|].
  destruct (build_full_graph nodes_gdf (row :: rows)) as [G|err] eqn:Hbuild.
  - by exists G.
  - exfalso. revert Hbuild. unfold build_full_graph.
    pose proof (node_loop_result nodes_gdf nx_empty) as Hloop.
    destruct (for_each add_node_row nx_empty nodes_gdf); [done|].
    destruct Hloop as [_ Hex]. apply Exists_exists in Hex as (r & Hr & Hp & Hl).
    eapply Forall_forall in Hpos; [|done].
    destruct Hpos as [[? Hp']|[[? Hlon] [? Hlat]]]; [congruence|].
    destruct Hl; congruence.
Qed.
End load_graph_from_pbf_facts.

Lemma pbf_edges_required_witness :
  let no_rows : file_system → string → option (list float) →
      result (list node_row * option (list edge_row)) :=
    λ _ _ _, Ok (sample_node_rows, Some []) in
  no_rows sample_file_system "riga.osm.pbf" (Some [23.95; 56.88; 24.30; 57.05]%float)
    = Ok (sample_node_rows, Some []) ∧
  load_graph_from_pbf no_rows Ok sample_file_system "riga.osm.pbf" (Some RIGA_BBOX)
    = Raise no_edges_found.
Proof.
  split; [reflexivity|].
  apply (proj2 (pbf_edges_required (λ _ _ _, Ok (sample_node_rows, Some [])) Ok
    sample_file_system "riga.osm.pbf" 56.88 23.95 57.05 24.30 sample_node_rows (Some [])
    eq_refl)).
  by right.
Defined.

Lemma pbf_simplification_is_optional_witness :
  sample_get_network sample_file_system "riga.osm.pbf"
    (Some [23.95; 56.88; 24.30; 57.05]%float) = Ok (sample_node_rows, Some sample_edge_rows) ∧
  sample_edge_rows ≠ [] ∧
  ∃ G, build_full_graph sample_node_rows sample_edge_rows = Ok G ∧
    load_graph_from_pbf sample_get_network (λ _, Raise (ValueError "simplify"))
      sample_file_system "riga.osm.pbf" (Some RIGA_BBOX) = Ok (nx_view G, nx_view G).
Proof.
  split; [reflexivity|]. split; [done|].
  apply (pbf_simplification_is_optional sample_get_network
    (λ _, Raise (ValueError "simplify")) sample_file_system "riga.osm.pbf"
    56.88 23.95 57.05 24.30 sample_node_rows sample_edge_rows eq_refl); [done|].
  repeat (apply Forall_cons_2;
    [cbn; first [left; by eexists | right; split; by eexists]|]).
  apply Forall_nil_2.
Defined.

Lemma graph_to_json_raise `{Runtime} Gs Gf err :
  graph_to_json Gs Gf = Raise err →
  (∃ e, e ∈ G_edges Gs ∧ build_segment Gs e = Raise err) ∨
  starting_location (project_node <$> G_nodes Gs) = Raise err.
Proof.
  intros [Hloop|[_ Hloc]]%graph_to_json_raises; [left | by right].
  apply for_each_segment_step_raises in Hloop as (pre & e & post & Hkept & _ & He).
  exists e. split; [|done]. apply (kept_edges_fresh _ ∅). rewrite Hkept.
  apply elem_of_app. right. by left.
Qed.

(** X18: building the graph of the rows fails only in the node loop, on
    a row that has no point and lacks a coordinate column, and then with
    [AttributeError]; the edge rows never make it fail. *)
Theorem build_full_graph_fails_only_on_node_rows nodes_gdf edges_gdf :
  match build_full_graph nodes_gdf edges_gdf with
  | Ok _ =>
      Forall (λ row, is_Some (row_point row) ∨
                (is_Some (row_lon row) ∧ is_Some (row_lat row))) nodes_gdf
  | Raise err =>
      (err = AttributeError "x" ∨ err = AttributeError "y") ∧
      Exists (λ row, row_point row = None ∧
                (row_lon row = None ∨ row_lat row = None)) nodes_gdf
  end.
Proof.
  unfold build_full_graph. pose proof (node_loop_result nodes_gdf nx_empty) as Hloop.
  by destruct (for_each add_node_row nx_empty nodes_gdf).
Qed.

(** X19: the graph built from the rows is a multigraph as networkx keeps
    it: its nodes are the identifiers of the node rows, each once; no two
    edges share (u, v, key); both ends of every edge are nodes. *)
Theorem pbf_graph_is_multigraph nodes_gdf edges_gdf G :
  build_full_graph nodes_gdf edges_gdf = Ok G →
  NoDup (G_nodes (nx_view G)).*1 ∧
  (∀ n, n ∈ (G_nodes (nx_view G)).*1 ↔ n ∈ row_id <$> nodes_gdf) ∧
  NoDup (edge_triple <$> G_edges (nx_view G)) ∧
  edges_end_in_nodes (nx_view G).
Proof.
  intros (Hwf & _ & Hids & _)%build_full_graph_inv. cbn. split_and!.
  - apply Hwf.
  - done.
  - by apply nx_triples_NoDup.
  - by apply nx_edges_end_in_nodes.
Qed.

(** X20: the edges of the built graph are the edge rows whose two ends are
    node rows, one edge per such row and no other: the edge carries the
    attributes of its row, and its key is the number of earlier such rows
    between the same two nodes in the same direction. *)
Theorem pbf_edges_from_rows nodes_gdf edges_gdf G :
  build_full_graph nodes_gdf edges_gdf = Ok G →
  G_edges (nx_view G) ≡ₚ keyed_edges [] (accepted_rows (row_id <$> nodes_gdf) edges_gdf).
Proof. by intros (_ & _ & _ & Hperm)%build_full_graph_inv. Qed.

(** X21: when no two node rows share an identifier, the nodes of the
    built graph are the node rows in their order, with [x] the [lon] column
    and [y] the [lat] column, or the coordinates of the point where the
    column is missing. *)
Theorem pbf_nodes_from_rows nodes_gdf edges_gdf G :
  build_full_graph nodes_gdf edges_gdf = Ok G → NoDup (row_id <$> nodes_gdf) →
  Forall2 (λ row nd, nd.1 = row_id row ∧
    nd.2 !! "x" = (if row_lon row is Some lon then Some lon else fst <$> row_point row) ∧
    nd.2 !! "y" = (if row_lat row is Some lat then Some lat else snd <$> row_point row))
    nodes_gdf (G_nodes (nx_view G)).
Proof.
  intros Hbuild Hids. pose proof Hbuild as Hbuild'. revert Hbuild'. unfold build_full_graph.
  destruct (for_each add_node_row nx_empty nodes_gdf) as [G0|] eqn:Hnodes; [|done].
  cbn. intros [= <-].
  destruct (node_loop_inv _ _ _ Hnodes nx_wf_empty) as (Hwf & _ & _ & Hcount & Hids0).
  { by intros ? ? ?%elem_of_nil. }
  destruct (edge_loop_inv edges_gdf G0 [] (row_id <$> nodes_gdf) Hwf) as (_ & -> & _).
  { intros n. rewrite Hids0. cbn. rewrite elem_of_nil. tauto. }
  { intros u v. by rewrite Hcount. }
  destruct (node_loop_distinct _ _ _ Hnodes nx_wf_empty Hids) as (nds & -> & Hnds); [|done].
  by intros ? _ ?%elem_of_nil.
Qed.

(** X22: every node of the built graph carries both coordinates, so no
    edge of it fails on a missing coordinate.  Its export returns when the
    geometry of every edge row is missing or a line of two-dimensional
    points and the starting location can be computed; a failure is the
    [AttributeError] or the [ValueError] of a geometry cell, or the
    exception of the computation of the starting location. *)
Theorem pbf_graph_exports `{Runtime} nodes_gdf edges_gdf G Gf :
  build_full_graph nodes_gdf edges_gdf = Ok G →
  ((∀ row g, row ∈ edges_gdf → row_geometry row = Some g →
      ∃ points, g = VLineString (flipped <$> points)) →
    (∃ loc, starting_location (project_node <$> G_nodes (nx_view G)) = Ok loc) →
    ∃ doc, graph_to_json (nx_view G) Gf = Ok doc) ∧
  (∀ err, graph_to_json (nx_view G) Gf = Raise err →
    (∃ msg, err = ValueError msg) ∨ err = AttributeError "coords" ∨
    starting_location (project_node <$> G_nodes (nx_view G)) = Raise err).
Proof.
  intros Hbuild.
  assert (∀ u v key row, (u, v, key, edge_data row) ∈ nx_edges G →
    row_geometry row = None → edge_well_formed (nx_view G) (u, v, key, edge_data row))
    as Hplain.
  { intros u v key row He Hg. unfold edge_well_formed. rewrite edge_data_geometry, Hg.
    pose proof Hbuild as (Hwf & _)%build_full_graph_inv.
    destruct (nx_edges_end_in_nodes G Hwf _ _ _ _ He).
    split; by eapply build_full_graph_coordinates. }
  split.
  - intros Hgeo Hloc. apply graph_to_json_total; [|done]. apply Forall_forall.
    intros [[[u v] key] data] He. cbn in He.
    destruct (build_full_graph_edge _ _ _ _ _ _ _ Hbuild He) as (row & Hrow & -> & -> & ->).
    destruct (row_geometry row) as [g|] eqn:Hg; [|by apply Hplain].
    unfold edge_well_formed. rewrite edge_data_geometry, Hg. by eapply Hgeo.
  - intros err [([[[u v] key] data] & He & Hraise)|Hloc]%graph_to_json_raise;
      [|by right; right].
    cbn in He.
    destruct (build_full_graph_edge _ _ _ _ _ _ _ Hbuild He) as (row & Hrow & -> & -> & ->).
    destruct (row_geometry row) as [g|] eqn:Hg.
    + apply build_segment_raise in Hraise. revert Hraise. unfold get_geometry.
      rewrite edge_data_geometry, Hg.
      destruct g as [| | | | | |coords]; cbn; try (intros [= <-]; by right; left).
      intros [? _]%flip_coords_raise. by left.
    + apply Hplain, buildable_well_formed in He as [s Hs]; [congruence | done].
Qed.

(** X23: every segment of the export of the built graph comes from an
    edge row: its ends are the ends of the row, its way identifiers are the
    [id] cell of the row (the [osmid] cell without an [id] column, 0
    without both), as they are when a list and as a one-element list
    otherwise, and its length is the [length] cell, 0.0 without one. *)
Theorem pbf_segments_carry_row_ids `{Runtime} nodes_gdf edges_gdf G Gf doc s :
  build_full_graph nodes_gdf edges_gdf = Ok G →
  graph_to_json (nx_view G) Gf = Ok doc → s ∈ segments doc →
  ∃ row, row ∈ edges_gdf ∧
    startNodeId s = node_name (row_u row) ∧ endNodeId s = node_name (row_v row) ∧
    osmWayIds s =
      match default (default (VInt 0) (row_columns row !! "osmid"))
              (row_columns row !! "id") with
      | VList l => l
      | osm_id => [osm_id]
      end ∧
    lengthMeters s = default (VFloat 0) (row_columns row !! "length").
Proof.
  intros Hbuild Hdoc Hs.
  destruct (emitted_segment_source _ _ _ _ Hdoc Hs) as ([[[u v] key] data] & He & Hseg).
  cbn in He.
  destruct (build_full_graph_edge _ _ _ _ _ _ _ Hbuild He) as (row & Hrow & -> & -> & ->).
  apply build_segment_taken_from in Hseg as (_ & -> & -> & -> & _ & -> & _).
  exists row. split_and!; [done..| |].
  - unfold get_osm_ids. rewrite edge_data_osmid. cbn.
    by destruct (default _ (row_columns row !! "id")).
  - unfold get_length. by rewrite edge_data_length.
Qed.

Lemma pbf_graph_is_multigraph_witness :
  build_full_graph sample_node_rows sample_edge_rows = Ok sample_full_graph ∧
  NoDup (edge_triple <$> G_edges (nx_view sample_full_graph)).
Proof.
  assert (build_full_graph sample_node_rows sample_edge_rows = Ok sample_full_graph)
    as Hbuild by (vm_compute; reflexivity).
  split; [exact Hbuild|].
  apply (pbf_graph_is_multigraph sample_node_rows sample_edge_rows _ Hbuild).
Defined.

Lemma pbf_edges_from_rows_witness :
  build_full_graph sample_node_rows sample_edge_rows = Ok sample_full_graph ∧
  G_edges (nx_view sample_full_graph)
    ≡ₚ keyed_edges [] (accepted_rows (row_id <$> sample_node_rows) sample_edge_rows).
Proof.
  assert (build_full_graph sample_node_rows sample_edge_rows = Ok sample_full_graph)
    as Hbuild by (vm_compute; reflexivity).
  split; [exact Hbuild|].
  apply (pbf_edges_from_rows sample_node_rows sample_edge_rows _ Hbuild).
Defined.

Lemma pbf_nodes_from_rows_witness :
  build_full_graph sample_node_rows sample_edge_rows = Ok sample_full_graph ∧
  NoDup (row_id <$> sample_node_rows) ∧
  Forall2 (λ row nd, nd.1 = row_id row ∧
    nd.2 !! "x" = (if row_lon row is Some lon then Some lon else fst <$> row_point row) ∧
    nd.2 !! "y" = (if row_lat row is Some lat then Some lat else snd <$> row_point row))
    sample_node_rows (G_nodes (nx_view sample_full_graph)).
Proof.
  assert (build_full_graph sample_node_rows sample_edge_rows = Ok sample_full_graph)
    as Hbuild by (vm_compute; reflexivity).
  assert (NoDup (row_id <$> sample_node_rows)) as Hids.
  { apply (bool_decide_unpack (NoDup _)). vm_compute. exact I. }
  split; [exact Hbuild|]. split; [exact Hids|].
  apply (pbf_nodes_from_rows sample_node_rows sample_edge_rows _ Hbuild Hids).
Defined.

Lemma pbf_graph_exports_witness :
  build_full_graph sample_node_rows sample_edge_rows = Ok sample_full_graph ∧
  starting_location (project_node <$> G_nodes (nx_view sample_full_graph))
    = Ok (Some {| node_id := "node_1"; lat := 0; lon := 0 |}) ∧
  ∃ doc, graph_to_json (nx_view sample_full_graph) None = Ok doc.
Proof.
  assert (build_full_graph sample_node_rows sample_edge_rows = Ok sample_full_graph)
    as Hbuild by (vm_compute; reflexivity).
  assert (starting_location (project_node <$> G_nodes (nx_view sample_full_graph))
    = Ok (Some {| node_id := "node_1"; lat := 0; lon := 0 |})) as Hloc
    by (vm_compute; reflexivity).
  split; [exact Hbuild|]. split; [exact Hloc|].
  apply (pbf_graph_exports sample_node_rows sample_edge_rows _ None Hbuild);
    [|by eexists].
  intros row g Hrow Hg. exfalso.
  repeat (apply elem_of_cons in Hrow as [->|Hrow]; [discriminate Hg|]).
  by apply elem_of_nil in Hrow.
Defined.

Lemma pbf_segments_carry_row_ids_witness :
  build_full_graph sample_node_rows sample_edge_rows = Ok sample_full_graph ∧
  graph_to_json (nx_view sample_full_graph) None = Ok sample_pbf_document ∧
  ∃ row, row ∈ sample_edge_rows ∧
    osmWayIds {| seg_id := "seg_1_2_1"; startNodeId := "node_1"; endNodeId := "node_2";
                 lengthMeters := VFloat 0; name := VNone; osmWayIds := [VInt 11];
                 geometry := [(0, 0); (0, 2)]%float; oneway := false |} =
      match default (default (VInt 0) (row_columns row !! "osmid"))
              (row_columns row !! "id") with
      | VList l => l
      | osm_id => [osm_id]
      end.
Proof.
  assert (build_full_graph sample_node_rows sample_edge_rows = Ok sample_full_graph)
    as Hbuild by (vm_compute; reflexivity).
  assert (graph_to_json (nx_view sample_full_graph) None = Ok sample_pbf_document)
    as Hdoc by (vm_compute; reflexivity).
  split; [exact Hbuild|]. split; [exact Hdoc|].
  destruct (pbf_segments_carry_row_ids sample_node_rows sample_edge_rows _ None _
    {| seg_id := "seg_1_2_1"; startNodeId := "node_1"; endNodeId := "node_2";
       lengthMeters := VFloat 0; name := VNone; osmWayIds := [VInt 11];
       geometry := [(0, 0); (0, 2)]%float; oneway := false |} Hbuild Hdoc)
    as (row & Hrow & _ & _ & Hids & _).
  { right. left. }
  by exists row.
Defined.

(** * The whole run on a PBF file *)

Section pbf_pipeline.
Context `{Runtime}.
Context (py_float : string → option float).
Context (open_for_writing : file_system → string → bool).
Context (json_dump : document → string * option exn).
Context (graph_from_xml : file_system → string → bool → result MultiDiGraph).
Context (truncate_graph_bbox :
  MultiDiGraph → float → float → float → float → result MultiDiGraph).
Context (graph_from_bbox : float → float → float → float → result MultiDiGraph).
Context (get_network : file_system → string → option (list float) →
  result (list node_row * option (list edge_row))).
Context (simplify_graph : MultiDiGraph → result MultiDiGraph).

#[local] Notation load_with_pyrosm :=
  (load_osm_graph true graph_from_xml truncate_graph_bbox graph_from_bbox
     (load_graph_from_pbf get_network simplify_graph)).
#[local] Notation run_with_pyrosm :=
  (main py_float load_with_pyrosm open_for_writing json_dump).

Lemma parsed_bbox_default a b :
  parsed_bbox py_float a = Ok b →
  ∃ min_lat min_lon max_lat max_lon,
    default RIGA_BBOX b = [min_lat; min_lon; max_lat; max_lon].
Proof.
  unfold parsed_bbox. destruct (bbox a) as [s|]; [|intros [= <-]; by eexists _, _, _, _].
  case_bool_decide; [intros [= <-]; by eexists _, _, _, _|].
  destruct (parse_bbox py_float s) as [l|] eqn:Hparse; cbn; [|done]. intros [= <-].
  apply parse_bbox_ok in Hparse as [Hlen _].
  destruct l as [|x1 [|x2 [|x3 [|x4 [|x5 l]]]]]; try done. by eexists _, _, _, _.
Qed.

(** X24: with pyrosm, a run on a [.pbf] file that ends with status 0 has
    asked pyrosm for the parsed box, or the box of Riga without one, in the
    order west, south, east, north, has got edge rows, and has written the
    dump of a document whose full graph has the node rows as its nodes,
    each identifier once, and one edge per edge row whose two ends are node
    rows. *)
Theorem pbf_run_exports_the_rows a fs fs' :
  endswith (osm_file a) ".pbf" = true →
  run_with_pyrosm a fs = (0, fs') →
  ∃ b min_lat min_lon max_lat max_lon nodes_gdf edges_gdf doc text,
    parsed_bbox py_float a = Ok b ∧
    default RIGA_BBOX b = [min_lat; min_lon; max_lat; max_lon] ∧
    get_network fs (osm_file a) (Some [min_lon; min_lat; max_lon; max_lat])
      = Ok (nodes_gdf, Some edges_gdf) ∧
    json_dump doc = (text, None) ∧ fs' = <[output_json a := text]> fs ∧
    NoDup (node_id <$> fullGraphNodes doc) ∧
    (∀ n, node_name n ∈ node_id <$> fullGraphNodes doc ↔ n ∈ row_id <$> nodes_gdf) ∧
    length (fullGraphEdges doc)
      = length (accepted_rows (row_id <$> nodes_gdf) edges_gdf).
Proof.
  intros Hpbf Hrun.
  destruct (main_cases py_float load_with_pyrosm open_for_writing json_dump a fs)
    as [Hfail|[doc Hdoc]]; [by rewrite Hfail in Hrun|].
  rewrite (main_converts_to _ _ _ _ _ _ _ Hdoc) in Hrun.
  destruct (open_for_writing fs (output_json a)); [|done].
  destruct (json_dump doc) as [text [e|]] eqn:Hdump; [done|]. injection Hrun as <-.
  destruct Hdoc as (b & Gs & Gf & Hb & _ & Hload & Hjson).
  destruct (parsed_bbox_default _ _ Hb) as (min_lat & min_lon & max_lat & max_lon & Hbox).
  unfold load_osm_graph in Hload. cbv zeta in Hload.
  rewrite Hpbf, Hbox in Hload. cbn [negb] in Hload.
  apply load_graph_from_pbf_inv in Hload
    as (bb & nodes_gdf & edges_gdf & G & Hbb & Hnet & _ & Hbuild & -> & _).
  destruct Hbb as (? & ? & ? & ? & [= <- <- <- <-] & ->).
  apply graph_to_json_inv in Hjson as (_ & _ & _ & Hfn & Hfe). cbn in Hfn, Hfe.
  pose proof Hbuild as (Hwf & _ & Hids & Hperm)%build_full_graph_inv.
  exists b, min_lat, min_lon, max_lat, max_lon, nodes_gdf, edges_gdf, doc, text.
  split_and!; try done.
  - rewrite Hfn, project_node_ids. apply NoDup_fmap_2_strong; [|apply Hwf].
    intros n n' _ _. apply node_name_inj.
  - intros n. rewrite Hfn, project_node_ids, <-Hids. split.
    + by intros (m & ->%node_name_inj & ?)%list_elem_of_fmap.
    + intros ?. by apply list_elem_of_fmap_2.
  - by rewrite Hfe, length_fmap, Hperm, keyed_edges_length.
Qed.
End pbf_pipeline.

Lemma pbf_run_exports_the_rows_witness :
  let run := main (λ _, None)
    (load_osm_graph true (λ _ _ _, Ok scenario_graph) (λ G _ _ _ _, Ok G)
       (λ _ _ _ _, Ok scenario_graph) (load_graph_from_pbf sample_get_network Ok))
    (λ _ _, true) complete_json_dump in
  endswith (osm_file sample_pbf_args) ".pbf" = true ∧
  run sample_pbf_args sample_pbf_file_system
    = (0, <["out.json" := "{...}"]> sample_pbf_file_system) ∧
  ∃ nodes_gdf edges_gdf doc,
    sample_get_network sample_pbf_file_system "riga.osm.pbf"
      (Some [23.95; 56.88; 24.30; 57.05]%float) = Ok (nodes_gdf, Some edges_gdf) ∧
    length (fullGraphEdges doc)
      = length (accepted_rows (row_id <$> nodes_gdf) edges_gdf).
Proof.
  assert (endswith (osm_file sample_pbf_args) ".pbf" = true) as Hpbf
    by (vm_compute; reflexivity).
  assert (main (λ _, None)
    (load_osm_graph true (λ _ _ _, Ok scenario_graph) (λ G _ _ _ _, Ok G)
       (λ _ _ _ _, Ok scenario_graph) (load_graph_from_pbf sample_get_network Ok))
    (λ _ _, true) complete_json_dump sample_pbf_args sample_pbf_file_system
    = (0, <["out.json" := "{...}"]> sample_pbf_file_system)) as Hrun
    by (vm_compute; reflexivity).
  split; [exact Hpbf|]. split; [exact Hrun|].
  destruct (pbf_run_exports_the_rows (λ _, None) (λ _ _, true) complete_json_dump
    (λ _ _ _, Ok scenario_graph) (λ G _ _ _ _, Ok G) (λ _ _ _ _, Ok scenario_graph)
    sample_get_network Ok sample_pbf_args sample_pbf_file_system _ Hpbf Hrun)
    as (b & min_lat & min_lon & max_lat & max_lon & nodes_gdf & edges_gdf & doc & text &
        Hb & Hbox & Hnet & _ & _ & _ & _ & Hlen).
  injection Hb as <-. injection Hbox as <- <- <- <-.
  by exists nodes_gdf, edges_gdf, doc.
Defined.
